(** * nuxt-utilities: the query filter decoder and the resource view

    A shallow embedding of the TypeScript of the repository that parses
    and serves list requests:

    - the query-string filter language ([castValue], [castNumberish],
      [castArray], [decodeValue], [handleArray], [parseAndOrNot],
      [processQuery], [useDrizzleRestFilter]), in module [Filter], and
      the earlier copy of [decodeValue] and [handleArray] that the
      repository also holds, in module [Filter0];
    - the resource view of [packages/viewset/src/useAPIView.ts]
      ([parseOrderQueryString], [useAPIView] and its operations [list],
      [retrieve], [update]), in module [APIView]; its other operations
      ([create], [destroy], [search], [register]) in module [Operations],
      and the [list] of the earlier copy in module [APIView0];
    - the form schema of [packages/drizzle-formkit]
      ([createFormKitSchema] and the inputs it picks), in module [FormKit].

    The functions of the JavaScript runtime they call ([Number], [BigInt],
    [Number.isSafeInteger], [Math.ceil], the string methods) are embedded
    from ECMA-262 in module [Js]; numbers are IEEE 754 binary64 values (the
    [spec_float] of the standard library at precision 53).  Strings are
    sequences of 8-bit characters; every sigil of the filter language is
    ASCII, and so is the white space [Number] trims here.  What ECMA-262
    leaves to the engine ([Date] parsing of non-ISO text) and what other
    packages provide (the query tokenizer, the schema validator, the
    database) enters as a parameter or as a field of the options.
    [console.log] calls are left out. *)

From Stdlib Require Import ZArith List String Ascii Bool Lia.
From Stdlib Require Import Floats.SpecFloat.
Import ListNotations.

Local Open Scope string_scope.
Local Open Scope Z_scope.

Set Implicit Arguments.
Set Warnings "-register-all".

(** ** Exceptions and results *)

(** What a call can throw.  [Error] is a plain [new Error(msg)];
    [TypeError] and [SyntaxError] are raised by the runtime itself (a
    property read on [undefined], [BigInt] on a malformed literal);
    [ZodError] is the validator's rejection; [BackendError] is a failure
    of the database call. *)
Inductive Exn : Type :=
| Error (msg : string)
| TypeError
| SyntaxError
| ZodError
| BackendError.

Inductive Result (A : Type) : Type :=
| Ok (a : A)
| Throw (e : Exn).

Arguments Ok {A} a.
Arguments Throw {A} e.

Definition bind {A B : Type} (r : Result A) (k : A -> Result B) : Result B :=
  match r with
  | Ok a => k a
  | Throw e => Throw e
  end.

Notation "x <- r ;; k" := (bind r (fun x => k))
  (at level 61, r at next level, right associativity).

(** [arr.map(f)] for an [f] that may throw: left to right, first throw wins. *)
Fixpoint mapM {A B : Type} (f : A -> Result B) (l : list A) : Result (list B) :=
  match l with
  | [] => Ok []
  | a :: l' => b <- f a ;; bs <- mapM f l' ;; Ok (b :: bs)
  end.

(** ** The JavaScript runtime *)

Module Js.

(** *** Strings *)

Definition toLowerChar (c : ascii) : ascii :=
  let n := nat_of_ascii c in
  if ((65 <=? n) && (n <=? 90))%nat then ascii_of_nat (n + 32) else c.

(** [s.toLowerCase()] *)
Fixpoint toLowerCase (s : string) : string :=
  match s with
  | EmptyString => EmptyString
  | String c s' => String (toLowerChar c) (toLowerCase s')
  end.

(** [s.startsWith(p)] *)
Definition startsWith (s p : string) : bool := String.prefix p s.

(** [s.substring(n)] for [0 <= n] *)
Fixpoint dropChars (n : nat) (s : string) : string :=
  match n, s with
  | O, _ => s
  | S n', EmptyString => EmptyString
  | S n', String _ s' => dropChars n' s'
  end.

(** [s.substring(start, end)]: both indices are clamped to the string and
    swapped when they come in the wrong order. *)
Definition substring (s : string) (start end_ : Z) : string :=
  let len := Z.of_nat (String.length s) in
  let a := Z.max 0 (Z.min start len) in
  let b := Z.max 0 (Z.min end_ len) in
  String.substring (Z.to_nat (Z.min a b)) (Z.to_nat (Z.max a b - Z.min a b)) s.

(** [s.includes(sub)] *)
Fixpoint includes (s sub : string) : bool :=
  match s with
  | EmptyString => String.prefix sub EmptyString
  | String _ s' => String.prefix sub s || includes s' sub
  end.

(** [s.split(sep)] for a non-empty separator: leftmost, non-overlapping
    occurrences.  [skip] counts the characters of a matched separator still
    to be passed. *)
Fixpoint splitGo (sep : string) (skip : nat) (s : string) : list string :=
  match s with
  | EmptyString => [EmptyString]
  | String c s' =>
      match skip with
      | S k => splitGo sep k s'
      | O =>
          if String.prefix sep s
          then EmptyString :: splitGo sep (String.length sep - 1) s'
          else
            match splitGo sep O s' with
            | piece :: pieces => String c piece :: pieces
            | [] => [String c EmptyString]
            end
      end
  end.

Definition split (s sep : string) : list string := splitGo sep O s.

(** [arr.join(sep)] *)
Definition join (l : list string) (sep : string) : string := String.concat sep l.

(** *** Numbers *)

Definition prec : Z := 53.
Definition emax : Z := 1024.

Definition number : Type := spec_float.

Definition NaN : number := S754_nan.

(** The Number whose value is the integer [z], rounded to nearest even. *)
Definition ofZ (z : Z) : number := binary_normalize prec emax z 0 false.

Definition isNaN (x : number) : bool :=
  match x with
  | S754_nan => true
  | _ => false
  end.

Definition sub (x y : number) : number := SFsub prec emax x y.
Definition mul (x y : number) : number := SFmul prec emax x y.
Definition div (x y : number) : number := SFdiv prec emax x y.

(** [Number.isSafeInteger(x)]: finite, integral, magnitude at most 2^53 - 1. *)
Definition isSafeInteger (x : number) : bool :=
  match x with
  | S754_zero _ => true
  | S754_finite _ m e =>
      if 0 <=? e
      then Z.pos m * 2 ^ e <=? 2 ^ 53 - 1
      else (Z.pos m mod 2 ^ (- e) =? 0) && (Z.pos m / 2 ^ (- e) <=? 2 ^ 53 - 1)
  | _ => false
  end.

(** [Math.ceil(x)] *)
Definition ceil (x : number) : number :=
  match x with
  | S754_finite s m e =>
      if 0 <=? e then x
      else
        let v := if s then Z.neg m else Z.pos m in
        binary_normalize prec emax (- ((- v) / 2 ^ (- e))) 0 s
  | _ => x
  end.

(** The value of a decimal literal [m * 10^e10], signed by [neg], rounded
    to nearest even.  (Past 20 significant digits ECMA-262 lets an engine
    round the literal first; the nearest value is taken here.) *)
Definition ofDecimal (neg : bool) (m e10 : Z) : number :=
  if m =? 0 then S754_zero neg
  else if 0 <=? e10
  then binary_normalize prec emax ((if neg then - m else m) * 10 ^ e10) 0 neg
  else
    let '(q, e, l) := SFdiv_core_binary prec emax m 0 (10 ^ (- e10)) 0 in
    binary_round_aux prec emax neg q e l.

(** White space and line terminators of [StrWhiteSpaceChar] below U+0080. *)
Definition isWhiteSpace (c : ascii) : bool :=
  let n := nat_of_ascii c in
  ((9 <=? n) && (n <=? 13) || (n =? 32))%nat.

Fixpoint revString (acc s : string) : string :=
  match s with
  | EmptyString => acc
  | String c s' => revString (String c acc) s'
  end.

Fixpoint trimStart (s : string) : string :=
  match s with
  | String c s' => if isWhiteSpace c then trimStart s' else s
  | EmptyString => s
  end.

Definition trim (s : string) : string :=
  revString EmptyString (trimStart (revString EmptyString (trimStart s))).

Definition isDigit (c : ascii) : bool :=
  let n := nat_of_ascii c in ((48 <=? n) && (n <=? 57))%nat.

(** The value of a digit in a radix up to 16, if it is one. *)
Definition digitValue (radix : Z) (c : ascii) : option Z :=
  let n := Z.of_nat (nat_of_ascii c) in
  let v :=
    if (48 <=? n) && (n <=? 57) then Some (n - 48)
    else if (97 <=? n) && (n <=? 102) then Some (n - 87)
    else if (65 <=? n) && (n <=? 70) then Some (n - 55)
    else None in
  match v with
  | Some d => if d <? radix then Some d else None
  | None => None
  end.

(** A possibly empty string of digits of the radix, as its value. *)
Fixpoint digitsValue (radix acc : Z) (s : string) : option Z :=
  match s with
  | EmptyString => Some acc
  | String c s' =>
      match digitValue radix c with
      | Some d => digitsValue radix (acc * radix + d) s'
      | None => None
      end
  end.

(** The longest prefix of decimal digits, and the rest. *)
Fixpoint spanDigits (s : string) : string * string :=
  match s with
  | String c s' =>
      if isDigit c
      then let '(d, r) := spanDigits s' in (String c d, r)
      else (EmptyString, s)
  | EmptyString => (EmptyString, EmptyString)
  end.

(** [DecimalDigits]: one digit or more, nothing else. *)
Definition decimalDigits (s : string) : option Z :=
  match s with
  | EmptyString => None
  | _ => digitsValue 10 0 s
  end.

(** [SignedInteger]: [DecimalDigits], [+ DecimalDigits], [- DecimalDigits]. *)
Definition signedInteger (s : string) : option Z :=
  match s with
  | String "+" s' => decimalDigits s'
  | String "-" s' => option_map Z.opp (decimalDigits s')
  | _ => decimalDigits s
  end.

(** [NonDecimalIntegerLiteral]: [0x], [0o], [0b] in either case, then one
    digit of the radix or more. *)
Definition nonDecimalInteger (s : string) : option Z :=
  match s with
  | String "0" (String r ds) =>
      let radix :=
        if (Ascii.eqb r "x" || Ascii.eqb r "X")%char then Some 16
        else if (Ascii.eqb r "o" || Ascii.eqb r "O")%char then Some 8
        else if (Ascii.eqb r "b" || Ascii.eqb r "B")%char then Some 2
        else None in
      match radix, ds with
      | Some b, String _ _ => digitsValue b 0 ds
      | _, _ => None
      end
  | _ => None
  end.

(** [ExponentPart], optional: the exponent value when the text is empty
    or [e]/[E] followed by a [SignedInteger]. *)
Definition exponentPart (s : string) : option Z :=
  match s with
  | EmptyString => Some 0
  | String c s' =>
      if (Ascii.eqb c "e" || Ascii.eqb c "E")%char then signedInteger s'
      else None
  end.

(** [StrUnsignedDecimalLiteral] other than [Infinity], as mantissa and
    decimal exponent: [digits . digits? exp?], [. digits exp?],
    [digits exp?]. *)
Definition unsignedDecimal (s : string) : option (Z * Z) :=
  let '(ip, r1) := spanDigits s in
  match r1 with
  | String "." r2 =>
      let '(fp, r3) := spanDigits r2 in
      match ip ++ fp with
      | EmptyString => None
      | ds =>
          match digitsValue 10 0 ds, exponentPart r3 with
          | Some m, Some e => Some (m, e - Z.of_nat (String.length fp))
          | _, _ => None
          end
      end
  | _ =>
      match ip with
      | EmptyString => None
      | _ =>
          match digitsValue 10 0 ip, exponentPart r1 with
          | Some m, Some e => Some (m, e)
          | _, _ => None
          end
      end
  end.

Definition strUnsignedDecimalLiteral (neg : bool) (s : string) : number :=
  if String.eqb s "Infinity" then S754_infinity neg
  else
    match unsignedDecimal s with
    | Some (m, e10) => ofDecimal neg m e10
    | None => NaN
    end.

(** [Number(s)] for a string [s] (StringToNumber): white space is trimmed,
    the empty text is [+0], text outside [StringNumericLiteral] is [NaN]. *)
Definition Number (s : string) : number :=
  match trim s with
  | EmptyString => S754_zero false
  | String "+" s' => strUnsignedDecimalLiteral false s'
  | String "-" s' => strUnsignedDecimalLiteral true s'
  | t =>
      match nonDecimalInteger t with
      | Some z => ofZ z
      | None => strUnsignedDecimalLiteral false t
      end
  end.

(** [BigInt(s)] for a string [s] (StringToBigInt): [None] stands for the
    [SyntaxError] it throws. *)
Definition BigInt (s : string) : option Z :=
  match trim s with
  | EmptyString => Some 0
  | t =>
      match nonDecimalInteger t with
      | Some z => Some z
      | None => signedInteger t
      end
  end.

End Js.

(** ** Values *)

(** The values the filter language produces: the scalars of [castValue]
    and the arrays and objects built around them.  A [Date] is its time
    value; an object is its own properties in the order [Object.keys]
    lists them. *)
Inductive JsValue : Type :=
| JUndefined
| JString (s : string)
| JNumber (n : Js.number)
| JBool (b : bool)
| JNull
| JBigInt (z : Z)
| JDate (t : Z)
| JArray (l : list JsValue)
| JObject (o : list (string * JsValue)).

Definition object : Type := list (string * JsValue).

(** [typeof v] *)
Definition typeof (v : JsValue) : string :=
  match v with
  | JUndefined => "undefined"
  | JString _ => "string"
  | JNumber _ => "number"
  | JBool _ => "boolean"
  | JBigInt _ => "bigint"
  | JNull | JDate _ | JArray _ | JObject _ => "object"
  end.

(** Property access on objects whose keys are strings. *)
Module Obj.

Section Props.
Variable V : Type.

(** [o[k]], [None] for [undefined]; also [o.hasOwnProperty(k)] *)
Fixpoint get (o : list (string * V)) (k : string) : option V :=
  match o with
  | [] => None
  | (k', v) :: o' => if String.eqb k' k then Some v else get o' k
  end.

(** [o[k] = v]: an existing property keeps its place *)
Fixpoint set (o : list (string * V)) (k : string) (v : V)
  : list (string * V) :=
  match o with
  | [] => [(k, v)]
  | (k', v') :: o' =>
      if String.eqb k' k then (k, v) :: o' else (k', v') :: set o' k v
  end.

(** [delete o[k]] *)
Fixpoint delete (o : list (string * V)) (k : string) : list (string * V) :=
  match o with
  | [] => []
  | (k', v') :: o' =>
      if String.eqb k' k then delete o' k else (k', v') :: delete o' k
  end.

(** [o[k] = v] for the pair [(k, v)] *)
Definition setPair (o : list (string * V)) (kv : string * V)
  : list (string * V) :=
  set o (fst kv) (snd kv).

(** [{ ...o, ...p }] *)
Definition spread (o p : list (string * V)) : list (string * V) :=
  fold_left setPair p o.

(** [Object.keys(o)] *)
Definition keys (o : list (string * V)) : list string := map fst o.
End Props.

End Obj.

(** A value of a parsed query string: one occurrence of a key gives a
    string, several give the array of them. *)
Inductive QValue : Type :=
| QString (s : string)
| QArray (l : list string).

Definition ParsedQuery : Type := list (string * QValue).

(** Truthiness of a query value: only the empty string is falsy. *)
Definition truthy (v : QValue) : bool :=
  match v with
  | QString s => negb (String.eqb s "")
  | QArray _ => true
  end.

(** [Number(v)], and [v] in arithmetic: an array is first joined with
    commas. *)
Definition NumberOf (v : QValue) : Js.number :=
  match v with
  | QString s => Js.Number s
  | QArray l => Js.Number (Js.join l ",")
  end.

(** ** The filter language *)

Module Filter.

Import Js.

Section Decoder.

(** [new Date(s).getTime()], [None] for the [NaN] of an invalid date.
    Outside the ISO format the accepted texts are the engine's choice. *)
Variable Date_parse : string -> option Z.

(** [getQuery] of the [ufo] package: a query string to its parameters. *)
Variable getQuery : string -> ParsedQuery.

Definition castValue (value : string) : Result JsValue :=
  if String.eqb value "" then Ok (JString "")
  else
    let logwerCaseValue := toLowerCase value in
    if String.eqb logwerCaseValue "true" then Ok (JBool true)
    else if String.eqb logwerCaseValue "false" then Ok (JBool false)
    else if String.eqb logwerCaseValue "null" then Ok JNull
    else
      let numericValue := Number value in
      if negb (isNaN numericValue) then
        if isSafeInteger numericValue then Ok (JNumber numericValue)
        else
          match BigInt value with
          | Some z => Ok (JBigInt z)
          | None => Throw SyntaxError
          end
      else
        match Date_parse value with
        | Some t => Ok (JDate t)
        | None => Ok (JString value)
        end.

Definition castNumberish (value : string) : Result JsValue :=
  let numericValue := Number value in
  if negb (isNaN numericValue) then
    if isSafeInteger numericValue then Ok (JNumber numericValue)
    else
      match BigInt value with
      | Some z => Ok (JBigInt z)
      | None => Throw SyntaxError
      end
  else
    match Date_parse value with
    | Some t => Ok (JDate t)
    | None => Throw (Error "Not a numberish value")
    end.

Definition castArray (value : list string) : Result (list JsValue) :=
  arr <- mapM castValue value ;;
  let firstElementType :=
    match arr with
    | v :: _ => typeof v
    | [] => "undefined"
    end in
  if forallb (fun v => String.eqb (typeof v) firstElementType) arr
  then Ok arr
  else Throw (Error "Not an array of the same type").

(** [castArray([start, end])] after [const [start, end] = parts]: a
    missing element is [undefined], on which [castValue] throws. *)
Definition castPair (parts : list string) : Result (list JsValue) :=
  match parts with
  | start :: end_ :: _ => castArray [start; end_]
  | [start] => _ <- castValue start ;; Throw TypeError
  | [] => Throw TypeError
  end.

Definition removePrefix (value pfx : string) : string :=
  dropChars (String.length pfx) value.

Definition decodeValue (value : string) : Result object :=
  let numericValue := Number value in
  if String.eqb value "" then Ok [("$null", JBool true)]
  else if String.eqb value "!" then Ok [("$null", JBool false)]
  else if negb (isNaN numericValue) then Ok [("$eq", JNumber numericValue)]
  else if startsWith value ">=" then
    x <- castNumberish (removePrefix value ">=") ;; Ok [("$gte", x)]
  else if startsWith value "<=" then
    x <- castNumberish (removePrefix value "<=") ;; Ok [("$lte", x)]
  else if startsWith value ">" then
    x <- castNumberish (removePrefix value ">") ;; Ok [("$gt", x)]
  else if startsWith value "<" then
    x <- castNumberish (removePrefix value "<") ;; Ok [("$lt", x)]
  else if includes value ".." then
    let parts :=
      if startsWith value "!"
      then split (removePrefix value "!") ".."
      else split value ".." in
    if startsWith value "!"
    then xs <- castPair parts ;; Ok [("$nbetween", JArray xs)]
    else xs <- castPair parts ;; Ok [("$between", JArray xs)]
  else if includes value "," then
    if startsWith value "@>" then
      xs <- mapM castValue (split (removePrefix value "@>") ",") ;;
      Ok [("$contained", JArray xs)]
    else if startsWith value "@" then
      Ok [("$contains", JString (removePrefix value "@"))]
    else if startsWith value "!" then
      xs <- castArray (split (removePrefix value "!") ",") ;;
      Ok [("$nin", JArray xs)]
    else
      xs <- castArray (split value ",") ;; Ok [("$in", JArray xs)]
  else if startsWith value "~" then
    Ok [("$like", JString (removePrefix value "~"))]
  else if startsWith value "!~" then
    Ok [("$nlike", JString (removePrefix value "!~"))]
  else if startsWith value "~*" then
    Ok [("$ilike", JString (removePrefix value "~*"))]
  else if startsWith value "!~*" then
    Ok [("$nilike", JString (removePrefix value "!~*"))]
  else if startsWith value "!" then
    Ok [("$ne", JString (removePrefix value "!"))]
  else Ok [("$eq", JString value)].

(** One turn of the [forEach] of [handleArray] on the element [v]. *)
Definition handleElement (queryObject : object) (v : string)
  : Result object :=
  decodedValue <- decodeValue v ;;
  match Obj.keys decodedValue with
  | [key0] =>
      match Obj.get queryObject key0 with
      | Some old =>
          Ok (Obj.delete
                (Obj.set queryObject "$and"
                   (JArray [JObject [(key0, old)]; JObject decodedValue]))
                key0)
      | None => Ok (Obj.spread queryObject decodedValue)
      end
  | _ => Throw (Error "Not implemented")
  end.

Fixpoint handleFrom (queryObject : object) (values : list string)
  : Result object :=
  match values with
  | [] => Ok queryObject
  | v :: values' =>
      queryObject' <- handleElement queryObject v ;;
      handleFrom queryObject' values'
  end.

Definition handleArray (values : list string) : Result object :=
  handleFrom [] values.

(** The loop shared by [parseAndOrNot] and [processQuery]: each entry
    with a string is decoded, each with an array goes through
    [handleArray], and the result is stored under the entry's key. *)
Fixpoint decodeEntries (acc : object) (entries : ParsedQuery)
  : Result object :=
  match entries with
  | [] => Ok acc
  | (key, QString value) :: entries' =>
      d <- decodeValue value ;;
      decodeEntries (Obj.set acc key (JObject d)) entries'
  | (key, QArray value) :: entries' =>
      d <- handleArray value ;;
      decodeEntries (Obj.set acc key (JObject d)) entries'
  end.

(** [value.substring(1, value.length - 1)] *)
Definition stripEnds (value : string) : string :=
  substring value 1 (Z.of_nat (String.length value) - 1).

(** [s.replaceAll('|', '&')] *)
Fixpoint replaceBars (s : string) : string :=
  match s with
  | EmptyString => EmptyString
  | String c s' =>
      String (if Ascii.eqb c "|" then "&"%char else c) (replaceBars s')
  end.

Definition parseAndOrNot (value : string) : Result object :=
  let cleanValue := stripEnds value in
  let tokens := replaceBars cleanValue in
  let query := getQuery tokens in
  decodeEntries [] query.

(** The keys taken out of the query before the filter loop. *)
Definition reservedKeys : list string :=
  ["and"; "or"; "not"; "page"; "size"; "sort"; "q"].

Definition isReserved (key : string) : bool :=
  existsb (String.eqb key) reservedKeys.

(** [...restQ] *)
Definition restOf (q : ParsedQuery) : ParsedQuery :=
  filter (fun kv => negb (isReserved (fst kv))) q.

(** [if (g) filter.$k = parseAndOrNot(g)]: an array has no [substring]. *)
Definition addGroup (filter : object) (name : string) (g : option QValue)
  : Result object :=
  match g with
  | Some (QString s) =>
      if String.eqb s "" then Ok filter
      else o <- parseAndOrNot s ;; Ok (Obj.set filter name (JObject o))
  | Some (QArray _) => Throw TypeError
  | None => Ok filter
  end.

Record ProcessedQuery : Type := {
  pq_filter : object;
  pq_page : number;
  pq_size : number;
  pq_sort : QValue;
  pq_searchQuery : QValue
}.

Definition orElse (v : option QValue) (d : QValue) : QValue :=
  match v with
  | Some x => if truthy x then x else d
  | None => d
  end.

Definition numberOrElse (v : option QValue) (d : Z) : number :=
  match v with
  | Some x => if truthy x then NumberOf x else ofZ d
  | None => ofZ d
  end.

Definition processQuery (q : ParsedQuery) : Result ProcessedQuery :=
  let restQ := restOf q in
  filter0 <- decodeEntries [] restQ ;;
  filter1 <- addGroup filter0 "$and" (Obj.get q "and") ;;
  filter2 <- addGroup filter1 "$or" (Obj.get q "or") ;;
  filter3 <- addGroup filter2 "$not" (Obj.get q "not") ;;
  Ok {| pq_filter := filter3;
        pq_page := numberOrElse (Obj.get q "page") 1;
        pq_size := numberOrElse (Obj.get q "size") 10;
        pq_sort := orElse (Obj.get q "sort") (QString "id");
        pq_searchQuery := orElse (Obj.get q "q") (QString "") |}.

Record FilterOptions : Type := {
  f_alias : option (list (string * string));
  f_exclude : option (list string);
  f_include : option (list string);
  allowedOperators : option (list string);
  blockedOperators : option (list string)
}.

Record SortOptions : Type := {
  s_alias : option (list (string * string));
  s_exclude : option (list string);
  s_include : option (list string);
  s_default : option string
}.

Record DrizzleRestFilterOptions : Type := {
  o_pageSize : option number;
  o_alias : option (list (string * string));
  o_exclude : option (list string);
  o_include : option (list string);
  o_filter : option FilterOptions;
  o_sort : option SortOptions;
  o_searchableFields : option (list string)
}.

(** What [useDrizzleRestFilter] returns: the four queries, and the
    limit and offset its pagination clause is built from. *)
Record RestFilter : Type := {
  filter_query : object;
  sort_query : QValue;
  search_query : QValue;
  pagination_query : number * number;
  pagination_limit : number;
  pagination_offset : number
}.

(** [a?.f ?? b] *)
Definition optOr {A B : Type} (a : option A) (f : A -> option B)
    (b : option B) : option B :=
  match a with
  | Some x => match f x with Some y => Some y | None => b end
  | None => b
  end.

Definition useDrizzleRestFilter (queryParam : string + ParsedQuery)
    (options : DrizzleRestFilterOptions) : Result RestFilter :=
  let filterAlias := optOr (o_filter options) f_alias (o_alias options) in
  let filterExclude := optOr (o_filter options) f_exclude (o_exclude options) in
  let filterInclude := optOr (o_filter options) f_include (o_include options) in
  let sortAlias := optOr (o_sort options) s_alias (o_alias options) in
  let sortExclude := optOr (o_sort options) s_exclude (o_exclude options) in
  let sortInclude := optOr (o_sort options) s_include (o_include options) in
  let query :=
    match queryParam with
    | inl s => getQuery s
    | inr q => q
    end in
  processedQuery <- processQuery query ;;
  let page := pq_page processedQuery in
  let size := pq_size processedQuery in
  Ok {| filter_query := pq_filter processedQuery;
        sort_query := pq_sort processedQuery;
        search_query := pq_searchQuery processedQuery;
        pagination_query := (page, size);
        pagination_limit := size;
        pagination_offset := mul (sub page (ofZ 1)) size |}.

End Decoder.

End Filter.

(** ** The filter language, earlier copy *)

(** The second copy of [decodeValue] and [handleArray] in the repository:
    the same tests in the same order, with the operands left as they are
    read ([Number] for the comparisons, the raw strings elsewhere), so
    that [decodeValue] throws nothing. *)
Module Filter0.

Import Js.

Definition removePrefix (value pfx : string) : string :=
  dropChars (String.length pfx) value.

(** [[start, end]] after [const [start, end] = parts] *)
Definition pairOfParts (parts : list string) : JsValue :=
  JArray [match parts with
          | start :: _ => JString start
          | [] => JUndefined
          end;
          match parts with
          | _ :: end_ :: _ => JString end_
          | _ => JUndefined
          end].

Definition strings (l : list string) : JsValue := JArray (map JString l).

Definition decodeValue (value : string) : object :=
  let numericValue := Number value in
  if String.eqb value "" then [("$null", JBool true)]
  else if String.eqb value "!" then [("$null", JBool false)]
  else if negb (isNaN numericValue) then [("$eq", JNumber numericValue)]
  else if startsWith value ">=" then
    [("$gte", JNumber (Number (removePrefix value ">=")))]
  else if startsWith value "<=" then
    [("$lte", JNumber (Number (removePrefix value "<=")))]
  else if startsWith value ">" then
    [("$gt", JNumber (Number (removePrefix value ">")))]
  else if startsWith value "<" then
    [("$lt", JNumber (Number (removePrefix value "<")))]
  else if includes value ".." then
    let parts :=
      if startsWith value "!"
      then split (removePrefix value "!") ".."
      else split value ".." in
    if startsWith value "!"
    then [("$nbetween", pairOfParts parts)]
    else [("$between", pairOfParts parts)]
  else if includes value "," then
    if startsWith value "@>" then
      [("$contained", strings (split (removePrefix value "@>") ","))]
    else if startsWith value "@" then
      [("$contains", JString (removePrefix value "@"))]
    else if startsWith value "!" then
      [("$nin", strings (split (removePrefix value "!") ","))]
    else [("$in", strings (split value ","))]
  else if startsWith value "~" then
    [("$like", JString (removePrefix value "~"))]
  else if startsWith value "!~" then
    [("$nlike", JString (removePrefix value "!~"))]
  else if startsWith value "~*" then
    [("$ilike", JString (removePrefix value "~*"))]
  else if startsWith value "!~*" then
    [("$nilike", JString (removePrefix value "!~*"))]
  else if startsWith value "!" then
    [("$ne", JString (removePrefix value "!"))]
  else [("$eq", JString value)].

Definition handleElement (queryObject : object) (v : string) : Result object :=
  let decodedValue := decodeValue v in
  match Obj.keys decodedValue with
  | [key0] =>
      match Obj.get queryObject key0 with
      | Some old =>
          Ok (Obj.delete
                (Obj.set queryObject "$and"
                   (JArray [JObject [(key0, old)]; JObject decodedValue]))
                key0)
      | None => Ok (Obj.spread queryObject decodedValue)
      end
  | _ => Throw (Error "Not implemented")
  end.

Fixpoint handleFrom (queryObject : object) (values : list string)
  : Result object :=
  match values with
  | [] => Ok queryObject
  | v :: values' =>
      queryObject' <- handleElement queryObject v ;;
      handleFrom queryObject' values'
  end.

Definition handleArray (values : list string) : Result object :=
  handleFrom [] values.

(** The earlier [castValue]: every text that reads as a number is that
    number, and nothing is thrown. *)
Definition castValue (value : string) : JsValue :=
  if String.eqb value "" then JString ""
  else if String.eqb (toLowerCase value) "true" then JBool true
  else if String.eqb (toLowerCase value) "false" then JBool false
  else if String.eqb (toLowerCase value) "null" then JNull
  else if isNaN (Number value) then JString value
  else JNumber (Number value).

End Filter0.

(** ** The resource view *)

Module APIView.

Import Js.

(** *** Collaborators *)

(** A [ZodObject]: the keys of its shape and what it makes of an object.
    [parse] throws on anything that is not an object, [undefined]
    included. *)
Record ZodObject : Type := {
  shape : list string;
  validate : object -> option object
}.

Definition parse (schema : ZodObject) (input : option object) : Result object :=
  match input with
  | None => Throw ZodError
  | Some o =>
      match validate schema o with
      | Some o' => Ok o'
      | None => Throw ZodError
      end
  end.

(** [z.array(schema).parse(rows)] *)
Definition parseArray (schema : ZodObject) (rows : list object)
  : Result (list object) :=
  mapM (fun r => parse schema (Some r)) rows.

Inductive Direction : Type := asc | desc.

(** A row as a select returns it: the selected columns and, when the
    window count over the whole result was selected as [count], its
    value mapped with [Number]. *)
Record DbRow : Type := {
  fields : object;
  windowCount : option number
}.

(** The row as the object the validator is given. *)
Definition rowObject (r : DbRow) : object :=
  match windowCount r with
  | Some c => Obj.set (fields r) "count" (JNumber c)
  | None => fields r
  end.

(** The select a call builds before it is awaited. *)
Record SelectQuery : Type := {
  sel_columns : list string;
  sel_count : bool;
  sel_where : option (string * option string);
  sel_orderBy : option (list (string * Direction));
  sel_limit : option number;
  sel_offset : option number
}.

(** The database as the view uses it: one awaited call per operation. *)
Record Database : Type := {
  select : SelectQuery -> Result (list DbRow);
  (** [update(model).set(values).where(eq(model[key], pk)).returning()] *)
  update_returning : object -> string -> option string -> Result (list object)
}.

(** A table: its columns with their primary-key flag, and the schemas
    [createSelectSchema] and [createInsertSchema] derive from it. *)
Record Table : Type := {
  columns : list (string * bool);
  selectSchema : ZodObject;
  insertSchema : ZodObject
}.

(** What the view reads of a request: its query, its route parameters and
    its body when it is an object. *)
Record H3Event : Type := {
  query : ParsedQuery;
  routerParams : list (string * string);
  body : option object
}.

Definition EventHandler : Type := H3Event -> Result JsValue.

(** *** Options *)

Inductive PrimaryKeyOption : Type :=
| PkColumn (column : string)
| PkPerOperation (pk_retrieve pk_update pk_delete : option string)
                 (pk_default : string).

Record SchemaOption : Type := {
  so_list : option ZodObject;
  so_create : option ZodObject;
  so_update : option ZodObject;
  so_retrieve : option ZodObject
}.

Record HandlersOption : Type := {
  h_list : option EventHandler;
  h_retrieve : option EventHandler;
  h_update : option EventHandler
}.

(** ['auto' | boolean] *)
Inductive CanPaginate : Type :=
| Auto
| Always (b : bool).

Record PaginationOption : Type := {
  po_pageSize : option number;
  po_canPaginate : option CanPaginate
}.

Record APIViewOptions : Type := {
  model : Table;
  db : Database;
  event : option H3Event;
  primaryKey : option PrimaryKeyOption;
  schema : option SchemaOption;
  handlers : option HandlersOption;
  pagination : option PaginationOption;
  searchFields : option (list string);
  filterFields : option (list string);
  orderFields : option (list string);
  defaultOrdering : option string
}.

(** [a ?? b] *)
Definition nullish {A : Type} (a : option A) (b : A) : A :=
  match a with
  | Some x => x
  | None => b
  end.

(** [a?.f] *)
Definition optField {A B : Type} (a : option A) (f : A -> option B) : option B :=
  match a with
  | Some x => f x
  | None => None
  end.

Definition getTablePrimaryKeys (table : Table) : list string :=
  map fst (filter snd (columns table)).

Definition getEvent (e : option H3Event) : Result H3Event :=
  match e with
  | Some ev => Ok ev
  | None => Throw (Error "event is undefined")
  end.

Definition getRouterParam (ev : H3Event) (name : string) : option string :=
  Obj.get (routerParams ev) name.

(** [fieldsToColumns(model, schema)]: one column per key of the shape. *)
Definition fieldsToColumns (schema : ZodObject) : list string := shape schema.

(** *** The ordering parameter *)

(** Whether [p] starts [s], and what follows it. *)
Fixpoint afterPrefix (p s : string) : option string :=
  match p, s with
  | EmptyString, _ => Some s
  | String a p', String b s' => if Ascii.eqb a b then afterPrefix p' s' else None
  | String _ _, EmptyString => None
  end.

(** The alternatives of the group [(f1|f2|...)] built by
    [validFields.join('|')]: the names themselves when none holds a
    character the pattern language reads specially; the empty list gives
    the empty alternative. *)
Definition alternatives (validFields : list string) : list string :=
  match validFields with
  | [] => [EmptyString]
  | _ => validFields
  end.

(** Whether [s] reads, to its end, an item and then any number of items
    each after a comma, an item being an optional dash and one of the
    alternatives: every choice of alternative is tried.  Each turn passes
    a comma, so [length s + 1] turns are enough. *)
Fixpoint matchItems (fuel : nat) (alts : list string) (s : string) : bool :=
  match fuel with
  | O => false
  | S fuel' =>
      existsb
        (fun item =>
           match afterPrefix item s with
           | Some EmptyString => true
           | Some (String c rest) =>
               if Ascii.eqb c "," then matchItems fuel' alts rest else false
           | None => false
           end)
        (alts ++ map (String "-") alts)
  end.

(** The pattern of [orderQueryStringSchema], anchored at both ends: the
    empty text, or items separated by commas. *)
Definition orderPattern (validFields : list string) (s : string) : bool :=
  match s with
  | EmptyString => true
  | _ => matchItems (S (String.length s)) (alternatives validFields) s
  end.

(** [part.replace(/^[-]/, '')] *)
Definition cleanedPart (part : string) : string :=
  match part with
  | String c rest => if Ascii.eqb c "-" then rest else part
  | EmptyString => part
  end.

Definition directionOf (part : string) : Direction :=
  if startsWith part "-" then desc else asc.

(** What the [map] makes of one part. *)
Definition pairOf (part : string) : string * Direction :=
  (cleanedPart part, directionOf part).

Definition parseOrderQueryString (queryString : option QValue)
    (validFields : list string) : Result (option (list (string * Direction))) :=
  match nullish queryString (QString "") with
  | QArray _ => Throw ZodError
  | QString orderQueryString =>
      if orderPattern validFields orderQueryString then
        let ordering :=
          fold_left (@Obj.setPair Direction)
                    (map pairOf (split orderQueryString ",")) [] in
        if (0 <? List.length (Obj.keys ordering))%nat
        then Ok (Some ordering)
        else Ok None
      else Throw ZodError
  end.

(** *** The view *)

Record View : Type := {
  options : APIViewOptions;
  pk_of_retrieve : string;
  pk_of_update : string;
  pk_of_delete : string;
  schema_list : ZodObject;
  schema_retrieve : ZodObject;
  schema_create : ZodObject;
  schema_update : ZodObject;
  pageSize_default : number
}.

(** One entry of [_primaryKey]. *)
Definition resolveKey (o : APIViewOptions)
    (own : PrimaryKeyOption -> option string) : option string :=
  match primaryKey o with
  | Some (PkColumn c) => Some c
  | Some (PkPerOperation r u d dflt as p) => Some (nullish (own p) dflt)
  | None => hd_error (getTablePrimaryKeys (model o))
  end.

Definition ownRetrieve (p : PrimaryKeyOption) : option string :=
  match p with PkPerOperation r _ _ _ => r | PkColumn _ => None end.
Definition ownUpdate (p : PrimaryKeyOption) : option string :=
  match p with PkPerOperation _ u _ _ => u | PkColumn _ => None end.
Definition ownDelete (p : PrimaryKeyOption) : option string :=
  match p with PkPerOperation _ _ d _ => d | PkColumn _ => None end.

Definition useAPIView (o : APIViewOptions) : Result View :=
  let keys :=
    [("retrieve", resolveKey o ownRetrieve); ("update", resolveKey o ownUpdate);
     ("delete", resolveKey o ownDelete)] in
  match resolveKey o ownRetrieve, resolveKey o ownUpdate,
        resolveKey o ownDelete with
  | Some r, Some u, Some d =>
      Ok {| options := o;
            pk_of_retrieve := r;
            pk_of_update := u;
            pk_of_delete := d;
            schema_list :=
              nullish (optField (schema o) so_list) (selectSchema (model o));
            schema_retrieve :=
              nullish (optField (schema o) so_retrieve) (selectSchema (model o));
            schema_create :=
              nullish (optField (schema o) so_create) (insertSchema (model o));
            schema_update :=
              nullish (optField (schema o) so_update) (insertSchema (model o));
            pageSize_default :=
              nullish (optField (pagination o) po_pageSize) (ofZ 24) |}
  | _, _, _ =>
      let undefinedKeys :=
        map fst
          (filter
             (fun kv => match snd kv with None => true | Some _ => false end)
             keys) in
      Throw (Error ("primaryKey[" ++ join undefinedKeys "|" ++ "] is undefined"))
  end.

(** [query.page || 1] *)
Inductive PageValue : Type :=
| PageParam (v : QValue)
| PageOne.

Definition pageNumber (p : PageValue) : number :=
  match p with
  | PageParam v => NumberOf v
  | PageOne => ofZ 1
  end.

Record ListOptions : Type := {
  lo_schema : option ZodObject;
  lo_pageSize : option number;
  lo_canPaginate : option CanPaginate;
  lo_event : option H3Event
}.

Record Paginated : Type := {
  page : PageValue;
  pageSize : number;
  count : number;
  pageCount : number;
  results : list object
}.

Inductive ListReply : Type :=
| ListHandled (r : JsValue)
| ListPaginated (p : Paginated)
| ListPlain (rows : list object).

Definition pageOf (q : ParsedQuery) : PageValue :=
  match Obj.get q "page" with
  | Some v => if truthy v then PageParam v else PageOne
  | None => PageOne
  end.

Definition paginateOf (canPaginate : CanPaginate) (q : ParsedQuery) : bool :=
  match canPaginate with
  | Auto => match Obj.get q "page" with Some _ => true | None => false end
  | Always b => b
  end.

(** [defaultOrdering ? parseOrderQueryString(defaultOrdering, columnNames)
    : undefined] *)
Definition defaultOrderingOf (o : APIViewOptions)
  : Result (option (list (string * Direction))) :=
  match defaultOrdering o with
  | Some d =>
      if String.eqb d "" then Ok None
      else parseOrderQueryString (Some (QString d)) (map fst (columns (model o)))
  | None => Ok None
  end.

Definition orderingOf (o : APIViewOptions) (q : ParsedQuery)
  : Result (option (list (string * Direction))) :=
  match Obj.get q "o", orderFields o with
  | Some v, Some fs =>
      if truthy v then parseOrderQueryString (Some v) fs
      else defaultOrderingOf o
  | _, _ => defaultOrderingOf o
  end.

(** [results[0].count ?? results.length] *)
Definition countOf (rows : list DbRow) : Result number :=
  match rows with
  | [] => Throw TypeError
  | r :: _ => Ok (nullish (windowCount r) (ofZ (Z.of_nat (List.length rows))))
  end.

(** The per-call options of [list] after their defaults. *)
Definition listSchema (v : View) (lo : ListOptions) : ZodObject :=
  nullish (lo_schema lo) (schema_list v).

Definition listPageSize (v : View) (lo : ListOptions) : number :=
  nullish (lo_pageSize lo) (pageSize_default v).

Definition listCanPaginate (v : View) (lo : ListOptions) : CanPaginate :=
  nullish (lo_canPaginate lo)
          (nullish (optField (pagination (options v)) po_canPaginate) Auto).

Definition listEvent (v : View) (lo : ListOptions) : option H3Event :=
  match lo_event lo with
  | Some e => Some e
  | None => event (options v)
  end.

(** The select [list] builds for the query [q] once the ordering is
    parsed; [filtering] is [undefined], so there is no [where]. *)
Definition listQuery (v : View) (lo : ListOptions) (q : ParsedQuery)
    (ordering : option (list (string * Direction))) : SelectQuery :=
  let pageSize := listPageSize v lo in
  let page := pageOf q in
  let paginate := paginateOf (listCanPaginate v lo) q in
  {| sel_columns := fieldsToColumns (listSchema v lo);
     sel_count := paginate;
     sel_where := None;
     sel_orderBy := ordering;
     sel_limit := if paginate then Some pageSize else None;
     sel_offset :=
       if paginate
       then Some (mul (sub (pageNumber page) (ofZ 1)) pageSize)
       else None |}.

Definition list (v : View) (lo : ListOptions) : Result ListReply :=
  let o := options v in
  let schema := listSchema v lo in
  let pageSize := listPageSize v lo in
  match optField (handlers o) h_list with
  | Some h => ev <- getEvent (listEvent v lo) ;; r <- h ev ;; Ok (ListHandled r)
  | None =>
      ev <- getEvent (listEvent v lo) ;;
      let q := query ev in
      let page := pageOf q in
      let paginate := paginateOf (listCanPaginate v lo) q in
      ordering <- orderingOf o q ;;
      rows <- select (db o) (listQuery v lo q ordering) ;;
      n <- countOf rows ;;
      if paginate then
        rs <- parseArray schema (map rowObject rows) ;;
        Ok (ListPaginated
              {| page := page;
                 pageSize := pageSize;
                 count := n;
                 pageCount := ceil (div n pageSize);
                 results := rs |})
      else
        rs <- parseArray schema (map rowObject rows) ;;
        Ok (ListPlain rs)
  end.

Record KeyedOptions : Type := {
  ko_primaryKey : option string;
  ko_schema : option ZodObject;
  ko_event : option H3Event
}.

Inductive Reply : Type :=
| Handled (r : JsValue)
| Row (r : object).

(** The per-call options of [retrieve] and [update] after their defaults. *)
Definition keyedEvent (v : View) (ko : KeyedOptions) : option H3Event :=
  match ko_event ko with
  | Some e => Some e
  | None => event (options v)
  end.

Definition retrieveKey (v : View) (ko : KeyedOptions) : string :=
  nullish (ko_primaryKey ko) (pk_of_retrieve v).

Definition retrieveSchema (v : View) (ko : KeyedOptions) : ZodObject :=
  nullish (ko_schema ko) (schema_retrieve v).

Definition updateKey (v : View) (ko : KeyedOptions) : string :=
  nullish (ko_primaryKey ko) (pk_of_update v).

Definition updateSchema (v : View) (ko : KeyedOptions) : ZodObject :=
  nullish (ko_schema ko) (schema_update v).

(** The select of [retrieve]: the columns of the schema, where the key
    column equals the route parameter of the same name. *)
Definition retrieveQuery (v : View) (ko : KeyedOptions) (ev : H3Event)
  : SelectQuery :=
  let primaryKey := retrieveKey v ko in
  {| sel_columns := fieldsToColumns (retrieveSchema v ko);
     sel_count := false;
     sel_where := Some (primaryKey, getRouterParam ev primaryKey);
     sel_orderBy := None;
     sel_limit := None;
     sel_offset := None |}.

Definition retrieve (v : View) (ko : KeyedOptions) : Result Reply :=
  let o := options v in
  let schema := retrieveSchema v ko in
  match optField (handlers o) h_retrieve with
  | Some h => ev <- getEvent (keyedEvent v ko) ;; r <- h ev ;; Ok (Handled r)
  | None =>
      ev <- getEvent (keyedEvent v ko) ;;
      results <- select (db o) (retrieveQuery v ko ev) ;;
      r <- parse schema (option_map rowObject (hd_error results)) ;;
      Ok (Row r)
  end.

Definition update (v : View) (ko : KeyedOptions) : Result Reply :=
  let o := options v in
  let primaryKey := updateKey v ko in
  let schema := updateSchema v ko in
  match optField (handlers o) h_update with
  | Some h => ev <- getEvent (keyedEvent v ko) ;; r <- h ev ;; Ok (Handled r)
  | None =>
      ev <- getEvent (keyedEvent v ko) ;;
      let pk := getRouterParam ev primaryKey in
      values <- parse schema (body ev) ;;
      result <- update_returning (db o) values primaryKey pk ;;
      r <- parse (schema_retrieve v) (hd_error result) ;;
      Ok (Row r)
  end.

End APIView.

(** ** The resource view: the other operations *)

(** [create], [destroy], [search] and [register] of [useAPIView].  What
    they read of the options beside the fields above -- the insert and
    delete calls of the database, the handlers that replace the three
    operations, the actions -- comes in a record of its own. *)
Module Operations.

Import Js APIView.

(** The methods of a route. *)
Inductive RouterMethod : Type :=
| Connect | Delete | Get | Head | Options | Patch | Post | Put | Trace.

(** An entry of [actions]; [method] is one method or an array of them. *)
Record Action : Type := {
  a_path : option string;
  a_method : option (RouterMethod + Datatypes.list RouterMethod);
  a_name : string;
  a_handler : EventHandler;
  a_detail : option bool
}.

Record OtherOptions : Type := {
  (** [insert(model).values(values).returning()] *)
  insert_returning : object -> Result (Datatypes.list object);
  (** [delete(model).where(eq(model[key], pk)).returning({ deletedId })] *)
  delete_returning : string -> option string -> Result (Datatypes.list object);
  h_create : option EventHandler;
  h_destroy : option EventHandler;
  h_search : option EventHandler;
  actions : option (Datatypes.list Action)
}.

Record CreateOptions : Type := {
  co_schema : option ZodObject;
  co_event : option H3Event
}.

Definition createEvent (v : View) (co : CreateOptions) : option H3Event :=
  match co_event co with
  | Some e => Some e
  | None => event (options v)
  end.

Definition createSchema (v : View) (co : CreateOptions) : ZodObject :=
  nullish (co_schema co) (schema_create v).

Definition create (x : OtherOptions) (v : View) (co : CreateOptions)
  : Result Reply :=
  let schema := createSchema v co in
  match h_create x with
  | Some h => ev <- getEvent (createEvent v co) ;; r <- h ev ;; Ok (Handled r)
  | None =>
      ev <- getEvent (createEvent v co) ;;
      values <- parse schema (body ev) ;;
      result <- insert_returning x values ;;
      r <- parse schema (hd_error result) ;;
      Ok (Row r)
  end.

Record DestroyOptions : Type := {
  do_primaryKey : option string;
  do_event : option H3Event
}.

Definition destroyEvent (v : View) (d : DestroyOptions) : option H3Event :=
  match do_event d with
  | Some e => Some e
  | None => event (options v)
  end.

Definition destroyKey (v : View) (d : DestroyOptions) : string :=
  nullish (do_primaryKey d) (pk_of_delete v).

(** What [destroy] answers: the handler's answer, or the first of the
    deleted ids, [None] for the [undefined] of an empty array. *)
Inductive DestroyReply : Type :=
| DestroyHandled (r : JsValue)
| Deleted (first : option object).

Definition destroy (x : OtherOptions) (v : View) (d : DestroyOptions)
  : Result DestroyReply :=
  let primaryKey := destroyKey v d in
  match h_destroy x with
  | Some h =>
      ev <- getEvent (destroyEvent v d) ;; r <- h ev ;; Ok (DestroyHandled r)
  | None =>
      ev <- getEvent (destroyEvent v d) ;;
      let pk := getRouterParam ev primaryKey in
      deletedIds <- delete_returning x primaryKey pk ;;
      Ok (Deleted (hd_error deletedIds))
  end.

(** What [search] answers: the handler's answer, or rows that come at
    once or after a wait in milliseconds. *)
Inductive SearchReply : Type :=
| SearchHandled (r : JsValue)
| Found (wait : Z) (rows : Datatypes.list object).

Definition searchEvent (v : View) (e : option H3Event) : option H3Event :=
  match e with
  | Some e' => Some e'
  | None => event (options v)
  end.

Definition search (x : OtherOptions) (v : View) (e : option H3Event)
  : Result SearchReply :=
  match h_search x with
  | Some h =>
      ev <- getEvent (searchEvent v e) ;; r <- h ev ;; Ok (SearchHandled r)
  | None =>
      ev <- getEvent (searchEvent v e) ;;
      let serachQuery := Obj.get (query ev) "q" in
      match serachQuery with
      | Some q => if truthy q then Ok (Found 1000 []) else Ok (Found 0 [])
      | None => Ok (Found 0 [])
      end
  end.

(** *** Routes *)

Inductive APIViewHandler : Type :=
| OpList | OpCreate | OpRetrieve | OpUpdate | OpDestroy | OpSearch.

(** [APIViewHandler[] | 'all'] *)
Inductive APIViewHandlers : Type :=
| All
| Only (names : Datatypes.list APIViewHandler).

Definition sameHandler (a b : APIViewHandler) : bool :=
  match a, b with
  | OpList, OpList | OpCreate, OpCreate | OpRetrieve, OpRetrieve
  | OpUpdate, OpUpdate | OpDestroy, OpDestroy | OpSearch, OpSearch => true
  | _, _ => false
  end.

(** [handlers === 'all' || handlers.includes(op)] *)
Definition wants (handlers : APIViewHandlers) (op : APIViewHandler) : bool :=
  match handlers with
  | All => true
  | Only names => existsb (sameHandler op) names
  end.

(** What a route runs: an operation of the view on the request, or the
    handler of an action. *)
Inductive Target : Type :=
| Operation (op : APIViewHandler)
| ActionHandler (handler : EventHandler).

Record Route : Type := {
  route_path : string;
  route_target : Target;
  route_method : RouterMethod + Datatypes.list RouterMethod
}.

(** A router is the routes added to it, in the order of the calls. *)
Definition Router : Type := Datatypes.list Route.

(** [router.add(path, handler, method)]; [router.get(path, handler)] and
    the like are [add] with their method. *)
Definition add (router : Router) (path : string) (target : Target)
    (method : RouterMethod + Datatypes.list RouterMethod) : Router :=
  (router ++ [{| route_path := path; route_target := target;
                 route_method := method |}])%list.

(** The path of an action under the path of the view. *)
Definition actionRoutePath (path : string) (a : Action) : string :=
  let _detail := nullish (a_detail a) false in
  let _actionPath := nullish (a_path a) (a_name a) in
  (if startsWith _actionPath "/" then _actionPath
   else path ++ "/" ++ _actionPath)
  ++ (if _detail then "/:pk" else "").

Definition addAction (path : string) (router : Router) (a : Action) : Router :=
  add router (actionRoutePath path a) (ActionHandler (a_handler a))
      (nullish (a_method a) (inl Get)).

Definition register (x : OtherOptions) (v : View) (router : Router)
    (path : string) (handlers : option APIViewHandlers) : Router :=
  let handlers := nullish handlers All in
  let router1 :=
    if wants handlers OpList
    then add router path (Operation OpList) (inl Get) else router in
  let router2 :=
    if wants handlers OpCreate
    then add router1 path (Operation OpCreate) (inl Post) else router1 in
  let router3 :=
    if wants handlers OpRetrieve
    then add router2 (path ++ "/:" ++ pk_of_retrieve v)
             (Operation OpRetrieve) (inl Get)
    else router2 in
  let router4 :=
    if wants handlers OpUpdate
    then add router3 (path ++ "/:" ++ pk_of_update v)
             (Operation OpUpdate) (inl Put)
    else router3 in
  let router5 :=
    if wants handlers OpDestroy
    then add router4 (path ++ "/:" ++ pk_of_delete v)
             (Operation OpDestroy) (inl Delete)
    else router4 in
  let router6 :=
    if wants handlers OpSearch
    then add router5 (path ++ "/search") (Operation OpSearch) (inl Get)
    else router5 in
  match actions x with
  | Some acts => fold_left (addAction path) acts router6
  | None => router6
  end.

End Operations.

(** ** The resource view, earlier copy *)

(** The [list] of the earlier copy of [useAPIView], which never pages and
    never counts: the same ordering, a select of the columns of the
    schema, and the rows through the schema.  Of the options of a call it
    reads the schema and the event. *)
Module APIView0.

Import Js APIView.

Definition listQuery (v : View) (lo : ListOptions)
    (ordering : option (Datatypes.list (string * Direction))) : SelectQuery :=
  {| sel_columns := fieldsToColumns (listSchema v lo);
     sel_count := false;
     sel_where := None;
     sel_orderBy := ordering;
     sel_limit := None;
     sel_offset := None |}.

Definition list (v : View) (lo : ListOptions) : Result ListReply :=
  let o := options v in
  let schema := listSchema v lo in
  match optField (handlers o) h_list with
  | Some h => ev <- getEvent (listEvent v lo) ;; r <- h ev ;; Ok (ListHandled r)
  | None =>
      ev <- getEvent (listEvent v lo) ;;
      let q := query ev in
      ordering <- orderingOf o q ;;
      results <- select (db o) (listQuery v lo ordering) ;;
      rs <- parseArray schema (map rowObject results) ;;
      Ok (ListPlain rs)
  end.

End APIView0.

(** ** The form schema *)

(** [createFormKitSchema] of [packages/drizzle-formkit]: one FormKit node
    for each column of a table. *)
Module FormKit.

Import Js.

(** What the schema reads of a column. *)
Record Column : Type := {
  name : string;
  dataType : string;
  columnType : string;
  notNull : bool
}.

(** A table: its name and [Object.entries(getTableColumns(table))]. *)
Record Table : Type := {
  tableName : string;
  columns : list (string * Column)
}.

Inductive PrimaryKeyMode : Type :=
| PkShown (b : bool)
| PkReadonly.

Record CreateFormKitSchemaOptions : Type := {
  useForm : option bool;
  primaryKey : option PrimaryKeyMode;
  exclude : option (list string);
  include : option (list JsValue);
  overrides : option (list (string * JsValue))
}.

(** [column.notNull ? 'required' : undefined] *)
Definition requiredOf (column : Column) : JsValue :=
  if notNull column then JString "required" else JUndefined.

(** The node of the five inputs that differ in their element alone. *)
Definition namedInput (el : string) (column : Column) : JsValue :=
  JObject [("$formkit", JString el);
           ("label", JString (name column));
           ("name", JString (name column));
           ("validation", requiredOf column)].

Definition getStringInput (column : Column) : JsValue :=
  namedInput "text" column.

Definition getNumericInput (column : Column) : JsValue :=
  let type := dataType column in
  JObject [("$formkit", JString "input");
           ("type", JString (if String.eqb type "number" then "number" else "text"));
           ("validation",
            if String.eqb type "number" then JString "number" else JUndefined)].

Definition getBooleanInput (column : Column) : JsValue :=
  namedInput "checkbox" column.

Definition getDateInput (column : Column) : JsValue :=
  namedInput "date" column.

Definition getArrayInput (column : Column) : JsValue :=
  namedInput "textarea" column.

Definition getJsonInput (column : Column) : JsValue :=
  namedInput "textarea" column.

(** The [switch] on the data type of a column. *)
Definition nodeOf (column : Column) : Result JsValue :=
  let dataType := dataType column in
  if String.eqb dataType "string" then Ok (getStringInput column)
  else if String.eqb dataType "number" then Ok (getNumericInput column)
  else if String.eqb dataType "boolean" then Ok (getBooleanInput column)
  else if String.eqb dataType "date" then Ok (getDateInput column)
  else if String.eqb dataType "array" then Ok (getArrayInput column)
  else if String.eqb dataType "json" then Ok (getJsonInput column)
  else Throw (Error ("Column type " ++ dataType ++ " not supported")).

(** [a?.f] on the options *)
Definition optionOf {A : Type} (options : option CreateFormKitSchemaOptions)
    (f : CreateFormKitSchemaOptions -> option A) : option A :=
  match options with
  | Some o => f o
  | None => None
  end.

Definition createFormKitSchema (table : Table)
    (options : option CreateFormKitSchemaOptions) : Result JsValue :=
  let useForm :=
    match optionOf options useForm with Some b => b | None => false end in
  let columnEntries := columns table in
  if Nat.eqb (List.length columnEntries) 0
  then Throw (Error ("Table " ++ tableName table ++ " has no columns"))
  else
    (* the entries without the excluded columns are computed and dropped *)
    let _ :=
      match optionOf options exclude with
      | Some ex =>
          filter (fun kv => negb (existsb (String.eqb (fst kv)) ex))
                 columnEntries
      | None => columnEntries
      end in
    schema <- mapM nodeOf (map snd columnEntries) ;;
    let schema :=
      match optionOf options include with
      | Some nodes => (schema ++ nodes)%list
      | None => schema
      end in
    if useForm
    then Ok (JObject [("$formkit", JString "form"); ("children", JArray schema)])
    else Ok (JArray schema).

End FormKit.

(** ** Sample collaborators *)

(** Instances of the parameters, for running the definitions on concrete
    requests. *)
Module Sample.

Import Js.

Definition isLeapYear (y : Z) : bool :=
  (y mod 4 =? 0) && (negb (y mod 100 =? 0) || (y mod 400 =? 0)).

Definition daysInMonth (y m : Z) : Z :=
  if m =? 2 then (if isLeapYear y then 29 else 28)
  else if (m =? 4) || (m =? 6) || (m =? 9) || (m =? 11) then 30
  else 31.

(** Days from 1970-01-01 to the given day of the proleptic Gregorian
    calendar. *)
Definition daysFromCivil (y m d : Z) : Z :=
  let y' := if m <=? 2 then y - 1 else y in
  let era := y' / 400 in
  let yoe := y' - era * 400 in
  let mp := (m + 9) mod 12 in
  let doy := (153 * mp + 2) / 5 + d - 1 in
  let doe := yoe * 365 + yoe / 4 - yoe / 100 + doy in
  era * 146097 + doe - 719468.

(** A [Date] parser that knows the date-only form [YYYY-MM-DD] of the ISO
    format, read as midnight UTC, and nothing else. *)
Definition Date_parse (s : string) : option Z :=
  if Nat.eqb (String.length s) 10
     && String.eqb (String.substring 4 1 s) "-"
     && String.eqb (String.substring 7 1 s) "-"
  then
    match decimalDigits (String.substring 0 4 s),
          decimalDigits (String.substring 5 2 s),
          decimalDigits (String.substring 8 2 s) with
    | Some y, Some m, Some d =>
        if (1 <=? m) && (m <=? 12) && (1 <=? d) && (d <=? daysInMonth y m)
        then Some (daysFromCivil y m d * 86400000)
        else None
    | _, _, _ => None
    end
  else None.

(** A tokenizer that finds no parameter in any text. *)
Definition getQuery (_ : string) : ParsedQuery := [].

(** Options of [useDrizzleRestFilter] whose filter allow-list names the
    field [age] alone. *)
Definition onlyAge : Filter.DrizzleRestFilterOptions :=
  {| Filter.o_pageSize := None;
     Filter.o_alias := None;
     Filter.o_exclude := None;
     Filter.o_include := None;
     Filter.o_filter :=
       Some {| Filter.f_alias := None;
               Filter.f_exclude := None;
               Filter.f_include := Some ["age"];
               Filter.allowedOperators := None;
               Filter.blockedOperators := None |};
     Filter.o_sort := None;
     Filter.o_searchableFields := None |}.

Import APIView.

(** The integer a Number is, when it is one. *)
Definition integerValue (x : number) : option Z :=
  match x with
  | S754_zero _ => Some 0
  | S754_finite s m e =>
      let v := if s then Z.neg m else Z.pos m in
      if 0 <=? e then Some (v * 2 ^ e)
      else if Z.pos m mod 2 ^ (- e) =? 0 then Some (v / 2 ^ (- e))
      else None
  | _ => None
  end.

(** [{ ...o }] cut down to the given keys. *)
Definition project (keys : Datatypes.list string) (o : object) : object :=
  filter (fun kv => existsb (String.eqb (fst kv)) keys) o.

Definition matchesKey (w : option (string * option string)) (r : object) : bool :=
  match w with
  | None => true
  | Some (column, Some pk) =>
      match Obj.get r column with
      | Some (JString s) => String.eqb s pk
      | _ => false
      end
  | Some (_, None) => false
  end.

(** A database over one table held in memory, whose keys are strings.  It
    keeps the table's order whatever the ordering asked for, and refuses a
    limit or an offset that is not a natural number. *)
Definition memSelect (table : Datatypes.list object) (q : SelectQuery)
  : Result (Datatypes.list DbRow) :=
  let matched := filter (matchesKey (sel_where q)) table in
  let n := ofZ (Z.of_nat (List.length matched)) in
  let row r :=
    {| fields := project (sel_columns q) r;
       windowCount := if sel_count q then Some n else None |} in
  match sel_limit q, sel_offset q with
  | None, None => Ok (map row matched)
  | Some l, Some o =>
      match integerValue l, integerValue o with
      | Some l', Some o' =>
          if (0 <=? l') && (0 <=? o')
          then Ok (map row (firstn (Z.to_nat l') (skipn (Z.to_nat o') matched)))
          else Throw BackendError
      | _, _ => Throw BackendError
      end
  | _, _ => Throw BackendError
  end.

Definition memUpdate (table : Datatypes.list object) (values : object)
    (column : string) (pk : option string) : Result (Datatypes.list object) :=
  Ok (map (fun r => Obj.spread r values)
          (filter (matchesKey (Some (column, pk))) table)).

Definition memDb (table : Datatypes.list object) : Database :=
  {| select := memSelect table;
     update_returning := memUpdate table |}.

(** A schema that asks for the given keys and strips the others. *)
Definition schemaOf (keys : Datatypes.list string) : ZodObject :=
  {| shape := keys;
     validate := fun o =>
       if forallb
            (fun k => match Obj.get o k with Some _ => true | None => false end)
            keys
       then Some (project keys o)
       else None |}.

Definition person (id name : string) (age : Z) : object :=
  [("id", JString id); ("name", JString name); ("age", JNumber (ofZ age))].

Definition people : Datatypes.list object :=
  [person "1" "Ann" 31; person "2" "Bob" 17; person "3" "Cy" 45].

Definition peopleTable : Table :=
  {| columns := [("id", true); ("name", false); ("age", false)];
     selectSchema := schemaOf ["id"; "name"; "age"];
     insertSchema := schemaOf ["name"; "age"] |}.

(** The view of the people table with [filterFields = ["age"]],
    [orderFields = ["name"]] and a page size of 2, over the given rows
    and for the given request. *)
Definition peopleOptions (rows : Datatypes.list object) (ev : H3Event)
  : APIViewOptions :=
  {| model := peopleTable;
     db := memDb rows;
     event := Some ev;
     primaryKey := None;
     schema := None;
     handlers := None;
     pagination := Some {| po_pageSize := Some (ofZ 2); po_canPaginate := None |};
     searchFields := None;
     filterFields := Some ["age"];
     orderFields := Some ["name"];
     defaultOrdering := None |}.

Definition peopleView (rows : Datatypes.list object) (ev : H3Event) : View :=
  {| options := peopleOptions rows ev;
     pk_of_retrieve := "id";
     pk_of_update := "id";
     pk_of_delete := "id";
     schema_list := schemaOf ["id"; "name"; "age"];
     schema_retrieve := schemaOf ["id"; "name"; "age"];
     schema_create := schemaOf ["name"; "age"];
     schema_update := schemaOf ["name"; "age"];
     pageSize_default := ofZ 2 |}.

Definition request (q : ParsedQuery) (params : Datatypes.list (string * string))
    (b : option object) : H3Event :=
  {| query := q; routerParams := params; body := b |}.

(** A request for the person of the given id. *)
Definition personRequest (id : string) (b : option object) : H3Event :=
  request [] [("id", id)] b.

Definition noListOptions : ListOptions :=
  {| lo_schema := None; lo_pageSize := None; lo_canPaginate := None;
     lo_event := None |}.

Definition forced : ListOptions :=
  {| lo_schema := None; lo_pageSize := None;
     lo_canPaginate := Some (Always true); lo_event := None |}.

Definition noKeyedOptions : KeyedOptions :=
  {| ko_primaryKey := None; ko_schema := None; ko_event := None |}.

(** The people view with no event of its own. *)
Definition peopleViewWithoutEvent : View :=
  {| options :=
       {| model := peopleTable;
          db := memDb people;
          event := None;
          primaryKey := None;
          schema := None;
          handlers := None;
          pagination := None;
          searchFields := None;
          filterFields := None;
          orderFields := None;
          defaultOrdering := None |};
     pk_of_retrieve := "id";
     pk_of_update := "id";
     pk_of_delete := "id";
     schema_list := schemaOf ["id"; "name"; "age"];
     schema_retrieve := schemaOf ["id"; "name"; "age"];
     schema_create := schemaOf ["name"; "age"];
     schema_update := schemaOf ["name"; "age"];
     pageSize_default := ofZ 24 |}.

(** The other calls of the database in memory: the insert returns the
    values as the new row, the delete returns the key of each row it
    matched. *)
Definition memInsert (values : object) : Result (Datatypes.list object) :=
  Ok [values].

Definition memDelete (table : Datatypes.list object) (column : string)
    (pk : option string) : Result (Datatypes.list object) :=
  Ok (map (fun r =>
             match Obj.get r column with
             | Some id => [("deletedId", id)]
             | None => []
             end)
          (filter (matchesKey (Some (column, pk))) table)).

Definition ping : EventHandler := fun _ => Ok (JString "pong").

(** No handler of its own, and one detail action named [ping]. *)
Definition otherOptions (rows : Datatypes.list object)
  : Operations.OtherOptions :=
  {| Operations.insert_returning := memInsert;
     Operations.delete_returning := memDelete rows;
     Operations.h_create := None;
     Operations.h_destroy := None;
     Operations.h_search := None;
     Operations.actions :=
       Some [{| Operations.a_path := None;
                Operations.a_method := None;
                Operations.a_name := "ping";
                Operations.a_handler := ping;
                Operations.a_detail := Some true |}] |}.

Definition noCreateOptions : Operations.CreateOptions :=
  {| Operations.co_schema := None; Operations.co_event := None |}.

Definition noDestroyOptions : Operations.DestroyOptions :=
  {| Operations.do_primaryKey := None; Operations.do_event := None |}.

(** A column of the people table as the form schema reads it. *)
Definition formColumn (name dataType : string) (notNull : bool)
  : FormKit.Column :=
  {| FormKit.name := name; FormKit.dataType := dataType;
     FormKit.columnType := ""; FormKit.notNull := notNull |}.

End Sample.

(** ** The vocabulary of the statements *)

(** The operator keys [decodeValue] can return. *)
Definition operatorKeys : list string :=
  ["$null"; "$eq"; "$gte"; "$lte"; "$gt"; "$lt"; "$nbetween"; "$between";
   "$contained"; "$contains"; "$nin"; "$in"; "$like"; "$nlike"; "$ne"].

(** What the decoder can throw. *)
Definition decoderError (e : Exn) : Prop :=
  e = SyntaxError \/ e = TypeError \/ e = Error "Not a numberish value"
  \/ e = Error "Not an array of the same type".

(** The value decodes: a string through [decodeValue], an array through
    [handleArray]. *)
Definition decodes (Date_parse : string -> option Z) (value : QValue) : Prop :=
  match value with
  | QString s => exists d, Filter.decodeValue Date_parse s = Ok d
  | QArray l => exists d, Filter.handleArray Date_parse l = Ok d
  end.

(** The keys under which [processQuery] stores the groups. *)
Definition groupKeys : list string := ["$and"; "$or"; "$not"].

(** Letters, digits and the underscore: the characters of a column name
    that the pattern reads as themselves. *)
Definition isWordChar (c : ascii) : bool :=
  let n := nat_of_ascii c in
  ((48 <=? n) && (n <=? 57) || (65 <=? n) && (n <=? 90)
   || (97 <=? n) && (n <=? 122) || (n =? 95))%nat.

Fixpoint allChars (p : ascii -> bool) (s : string) : bool :=
  match s with
  | EmptyString => true
  | String c s' => p c && allChars p s'
  end.

Definition plainField (f : string) : bool := allChars isWordChar f.

Definition noComma (s : string) : bool :=
  allChars (fun c => negb (Ascii.eqb c ",")) s.

(** The part, without its dash, is one of the fields. *)
Definition tokenAllowed (fields : list string) (part : string) : bool :=
  existsb (String.eqb (APIView.cleanedPart part)) fields.

(** The text up to the first comma, and the text after it if there is one. *)
Fixpoint breakComma (s : string) : string * option string :=
  match s with
  | EmptyString => (EmptyString, None)
  | String c s' =>
      if Ascii.eqb c ","
      then (EmptyString, Some s')
      else let '(t, r) := breakComma s' in (String c t, r)
  end.

(** The characters that open a sigil of the filter language. *)
Definition sigilChars : list ascii := [">"; "<"; "!"; "~"; "@"]%char.

(** The operands [castNumberish] lets through: a safe integer, a big
    integer or a date. *)
Definition numberish (x : JsValue) : bool :=
  match x with
  | JNumber n => Js.isSafeInteger n
  | JBigInt _ | JDate _ => true
  | _ => false
  end.

(** The values [castValue] lets through: the numberish ones, the booleans,
    [null] and the strings. *)
Definition scalar (x : JsValue) : bool :=
  match x with
  | JString _ | JBool _ | JNull => true
  | _ => numberish x
  end.

(** The operators that compare with a bound, and those that take a range. *)
Definition comparisonKeys : list string := ["$gte"; "$lte"; "$gt"; "$lt"].

Definition rangeKeys : list string := ["$between"; "$nbetween"].

(** The operators whose operand is the text after the sigil, with the
    sigil. *)
Definition textOperators : list (string * string) :=
  [("$like", "~"); ("$nlike", "!~"); ("$ne", "!"); ("$contains", "@")].

(** One part of an ordering as the [o] parameter writes it, and a whole
    ordering. *)
Definition renderPart (p : string * APIView.Direction) : string :=
  match snd p with
  | APIView.asc => fst p
  | APIView.desc => String "-" (fst p)
  end.

Definition renderOrdering (l : list (string * APIView.Direction)) : string :=
  Js.join (map renderPart l) ",".

(** The operators whose operand the two copies of the decoder read
    alike. *)
Definition sameOperandKeys : list string :=
  ["$null"; "$eq"; "$contains"; "$like"; "$nlike"; "$ne"].

(** The operations in the order [register] looks at them, and the route
    of each under the path of the view. *)
Definition allHandlers : list Operations.APIViewHandler :=
  [Operations.OpList; Operations.OpCreate; Operations.OpRetrieve;
   Operations.OpUpdate; Operations.OpDestroy; Operations.OpSearch].

Definition operationRoute (v : APIView.View) (path : string)
    (op : Operations.APIViewHandler) : Operations.Route :=
  let route p m :=
    {| Operations.route_path := p;
       Operations.route_target := Operations.Operation op;
       Operations.route_method := inl m |} in
  match op with
  | Operations.OpList => route path Operations.Get
  | Operations.OpCreate => route path Operations.Post
  | Operations.OpRetrieve =>
      route (path ++ "/:" ++ APIView.pk_of_retrieve v) Operations.Get
  | Operations.OpUpdate =>
      route (path ++ "/:" ++ APIView.pk_of_update v) Operations.Put
  | Operations.OpDestroy =>
      route (path ++ "/:" ++ APIView.pk_of_delete v) Operations.Delete
  | Operations.OpSearch => route (path ++ "/search") Operations.Get
  end.

(** The route of an action. *)
Definition actionRoute (path : string) (a : Operations.Action)
  : Operations.Route :=
  {| Operations.route_path := Operations.actionRoutePath path a;
     Operations.route_target := Operations.ActionHandler (Operations.a_handler a);
     Operations.route_method :=
       APIView.nullish (Operations.a_method a) (inl Operations.Get) |}.

(** The data types [createFormKitSchema] has an input for. *)
Definition supportedTypes : list string :=
  ["string"; "number"; "boolean"; "date"; "array"; "json"].

Definition supported (dataType : string) : bool :=
  existsb (String.eqb dataType) supportedTypes.

(** The schema [createFormKitSchema] makes of the nodes. *)
Definition wrapped (useForm : bool) (schema : list JsValue) : JsValue :=
  if useForm
  then JObject [("$formkit", JString "form"); ("children", JArray schema)]
  else JArray schema.

(** The node of every numeric column. *)
Definition numericNode : JsValue :=
  JObject [("$formkit", JString "input"); ("type", JString "number");
           ("validation", JString "number")].


(** * Properties *)

(** ** Strings and objects *)

#[local] Arguments String.eqb : simpl never.

Lemma eqb_neq_false (a b : string) : a <> b -> String.eqb a b = false.
Proof. intro H. apply String.eqb_neq. exact H. Qed.

Lemma prefix_append_l (p q s : string) :
  String.prefix (p ++ q) s = true -> String.prefix p s = true.
Proof.
  revert s. induction p as [|c p IH]; intros s; simpl.
  - destruct s; reflexivity.
  - destruct s as [|d s']; [discriminate|].
    simpl. destruct (ascii_dec c d); [apply IH | discriminate].
Qed.

Section ObjFacts.
Variable V : Type.
Implicit Types (o : list (string * V)) (k : string) (v : V).

Lemma get_set_same o k v : Obj.get (Obj.set o k v) k = Some v.
Proof.
  induction o as [|[k' v'] o IH]; simpl.
  - now rewrite String.eqb_refl.
  - destruct (String.eqb k' k) eqn:E; simpl.
    + now rewrite String.eqb_refl.
    + now rewrite E.
Qed.

Lemma get_set_other o k k' v :
  k <> k' -> Obj.get (Obj.set o k v) k' = Obj.get o k'.
Proof.
  intro Hne. induction o as [|[k0 v0] o IH]; simpl.
  - now rewrite eqb_neq_false.
  - destruct (String.eqb k0 k) eqn:E; simpl.
    + apply String.eqb_eq in E. subst k0.
      now rewrite (eqb_neq_false Hne).
    + now rewrite IH.
Qed.

Lemma set_not_nil o k v : Obj.set o k v <> [].
Proof.
  destruct o as [|[k' v'] o]; simpl; [discriminate|].
  destruct (String.eqb k' k); discriminate.
Qed.

Lemma set_fresh o k v : Obj.get o k = None -> Obj.set o k v = (o ++ [(k, v)])%list.
Proof.
  induction o as [|[k' v'] o IH]; simpl; [reflexivity|].
  destruct (String.eqb k' k); [discriminate|].
  intro H. now rewrite IH.
Qed.

Lemma get_app o o' k :
  Obj.get (o ++ o')%list k
  = match Obj.get o k with
    | Some x => Some x
    | None => Obj.get o' k
    end.
Proof.
  induction o as [|[k' v'] o IH]; simpl; [reflexivity|].
  now destruct (String.eqb k' k).
Qed.

Lemma get_None_notin o k : ~ In k (map fst o) -> Obj.get o k = None.
Proof.
  induction o as [|[k' v'] o IH]; simpl; [reflexivity|].
  intro H. destruct (String.eqb k' k) eqn:E.
  - apply String.eqb_eq in E. tauto.
  - apply IH. tauto.
Qed.

Lemma fold_set_not_nil l : forall acc,
  acc <> [] -> fold_left (@Obj.setPair V) l acc <> [].
Proof.
  induction l as [|a l IH]; intros acc H; [exact H|].
  simpl. apply IH. apply set_not_nil.
Qed.

(** The last assignment to a key is the one that stays. *)
Lemma get_fold_set l : forall acc k,
  Obj.get (fold_left (@Obj.setPair V) l acc) k
  = match Obj.get (rev l) k with
    | Some x => Some x
    | None => Obj.get acc k
    end.
Proof.
  induction l as [|[k' v'] l IH]; intros acc k; [reflexivity|].
  simpl. rewrite IH, get_app. destruct (Obj.get (rev l) k); [reflexivity|].
  unfold Obj.setPair. simpl. destruct (String.eqb k' k) eqn:E.
  - apply String.eqb_eq in E. subst. apply get_set_same.
  - apply get_set_other. now apply String.eqb_neq.
Qed.

(** Assigning distinct new keys appends them in order. *)
Lemma fold_set_fresh l : forall acc,
  NoDup (map fst l) ->
  (forall k, In k (map fst l) -> Obj.get acc k = None) ->
  fold_left (@Obj.setPair V) l acc = (acc ++ l)%list.
Proof.
  induction l as [|[k v] l IH]; intros acc Hnd Hfresh.
  - now rewrite app_nil_r.
  - inversion Hnd as [|? ? Hnotin Hnd']. subst. simpl.
    unfold Obj.setPair at 2. simpl.
    rewrite set_fresh by (apply Hfresh; now left).
    rewrite IH.
    + now rewrite <- app_assoc.
    + exact Hnd'.
    + intros k' Hk'. rewrite get_app, Hfresh by now right.
      simpl. rewrite eqb_neq_false; [reflexivity|].
      intro E. subst. contradiction.
Qed.

Lemma keys_set_In o k v k' :
  In k' (Obj.keys (Obj.set o k v)) <-> k' = k \/ In k' (Obj.keys o).
Proof.
  induction o as [|[k0 v0] o IH]; simpl.
  - intuition.
  - destruct (String.eqb k0 k) eqn:E; simpl.
    + apply String.eqb_eq in E. subst k0. intuition.
    + rewrite IH. intuition.
Qed.

Lemma NoDup_keys_set o k v :
  NoDup (Obj.keys o) -> NoDup (Obj.keys (Obj.set o k v)).
Proof.
  induction o as [|[k0 v0] o IH]; simpl; intro H.
  - constructor; [simpl; tauto | constructor].
  - inversion H as [|? ? Hnotin Hnd]. subst.
    destruct (String.eqb k0 k) eqn:E; simpl.
    + apply String.eqb_eq in E. subst k0. now constructor.
    + constructor; [|now apply IH].
      fold (Obj.keys (Obj.set o k v)). rewrite keys_set_In.
      apply String.eqb_neq in E. intros [->|Hin]; tauto.
Qed.

Lemma NoDup_keys_fold_set l : forall acc,
  NoDup (Obj.keys acc) -> NoDup (Obj.keys (fold_left (@Obj.setPair V) l acc)).
Proof.
  induction l as [|a l IH]; intros acc H; [exact H|].
  simpl. apply IH. now apply NoDup_keys_set.
Qed.

Lemma get_In o k v : Obj.get o k = Some v -> In (k, v) o.
Proof.
  induction o as [|[k0 v0] o IH]; simpl; [discriminate|].
  destruct (String.eqb k0 k) eqn:E.
  - apply String.eqb_eq in E. intro H. inversion H. subst. now left.
  - intro H. right. now apply IH.
Qed.
End ObjFacts.

(** ** The decoder *)

Section FilterFacts.

Import Js Filter.

Variable Date_parse : string -> option Z.
Variable getQuery : string -> ParsedQuery.

Ltac split_code H :=
  repeat match type of H with
    | context [if ?c then _ else _] =>
        let E := fresh "C" in destruct c eqn:E
    | context [bind ?r _] => let E := fresh "E" in destruct r eqn:E; simpl in H
    | context [match ?r with Some _ => _ | None => _ end] =>
        let E := fresh "E" in destruct r eqn:E
    end.

Lemma castValue_throw value e :
  castValue Date_parse value = Throw e -> e = SyntaxError.
Proof.
  unfold castValue. intro H. split_code H; congruence.
Qed.

Lemma mapM_castValue_throw values e :
  mapM (castValue Date_parse) values = Throw e -> e = SyntaxError.
Proof.
  induction values as [|v vs IH]; simpl; [discriminate|].
  destruct (castValue Date_parse v) eqn:E; simpl.
  - destruct (mapM (castValue Date_parse) vs); simpl; [discriminate|].
    intro H. apply IH. congruence.
  - intro H. apply castValue_throw with (value := v). congruence.
Qed.

Lemma castArray_throw values e :
  castArray Date_parse values = Throw e -> decoderError e.
Proof.
  unfold castArray, decoderError. intro H.
  destruct (mapM (castValue Date_parse) values) eqn:E; simpl in H.
  - destruct (forallb _ a); [discriminate|]. inversion H. tauto.
  - inversion H. subst. left. now apply mapM_castValue_throw with (values := values).
Qed.

Lemma castPair_throw parts e :
  castPair Date_parse parts = Throw e -> decoderError e.
Proof.
  destruct parts as [|a [|b rest]]; simpl.
  - intro H. inversion H. unfold decoderError. tauto.
  - destruct (castValue Date_parse a) eqn:E; simpl; intro H; inversion H; subst.
    + unfold decoderError. tauto.
    + left. now apply castValue_throw with (value := a).
  - apply castArray_throw.
Qed.

Lemma castNumberish_throw value e :
  castNumberish Date_parse value = Throw e -> decoderError e.
Proof.
  unfold castNumberish, decoderError. intro H.
  split_code H; inversion H; tauto.
Qed.

Lemma decodeValue_throw value e :
  decodeValue Date_parse value = Throw e -> decoderError e.
Proof.
  unfold decodeValue. intro H.
  split_code H; try discriminate;
    inversion H; subst;
    first [ eapply castNumberish_throw; eassumption
          | eapply castPair_throw; eassumption
          | eapply castArray_throw; eassumption
          | left; eapply mapM_castValue_throw; eassumption ].
Qed.

(** A text that starts with a longer sigil starts with its first
    character: the tests for the longer sigil come too late. *)
Ltac shadowed :=
  match goal with
  | Hs : startsWith ?v "~" = false, Hl : startsWith ?v "~*" = true |- _ =>
      unfold startsWith in Hs, Hl;
      pose proof (prefix_append_l "~" "*" v Hl); congruence
  | Hs : startsWith ?v "!~" = false, Hl : startsWith ?v "!~*" = true |- _ =>
      unfold startsWith in Hs, Hl;
      pose proof (prefix_append_l "!~" "*" v Hl); congruence
  end.

Lemma decodeValue_shape value o :
  decodeValue Date_parse value = Ok o ->
  exists k x, o = [(k, x)] /\ In k operatorKeys.
Proof.
  unfold decodeValue. intro H.
  split_code H; try discriminate; try shadowed;
    inversion H; subst; do 2 eexists; (split; [reflexivity | simpl; tauto]).
Qed.

Lemma decodeValue0_shape value :
  exists k x, Filter0.decodeValue value = [(k, x)] /\ In k operatorKeys.
Proof.
  unfold Filter0.decodeValue.
  repeat match goal with
    | |- context [if ?c then _ else _] =>
        let E := fresh "C" in destruct c eqn:E
    end;
    try shadowed;
    do 2 eexists; (split; [reflexivity | simpl; tauto]).
Qed.

Lemma isReserved_false key r :
  isReserved key = false -> In r reservedKeys -> String.eqb key r = false.
Proof.
  intros H Hin. destruct (String.eqb key r) eqn:E; [|reflexivity].
  assert (isReserved key = true)
    by (apply existsb_exists; exists r; split; assumption).
  congruence.
Qed.

Lemma operatorKey_not_and k : In k operatorKeys -> k <> "$and".
Proof.
  unfold operatorKeys. simpl. intros H E. subst k.
  repeat (destruct H as [H|H]; [discriminate|]). exact H.
Qed.

Lemma handleElement_not_unimplemented queryObject v :
  handleElement Date_parse queryObject v <> Throw (Error "Not implemented").
Proof.
  unfold handleElement.
  destruct (decodeValue Date_parse v) as [o|e] eqn:E; simpl.
  - destruct (decodeValue_shape _ E) as (k & x & -> & _). simpl.
    destruct (Obj.get queryObject k); discriminate.
  - apply decodeValue_throw in E. intro H. inversion H. subst e.
    destruct E as [E|[E|[E|E]]]; discriminate.
Qed.

Lemma handleFrom_not_unimplemented values : forall queryObject,
  handleFrom Date_parse queryObject values <> Throw (Error "Not implemented").
Proof.
  induction values as [|v vs IH]; intro queryObject; simpl; [discriminate|].
  destruct (handleElement Date_parse queryObject v) as [q'|e] eqn:E; simpl.
  - apply IH.
  - intro H. apply (handleElement_not_unimplemented queryObject v). congruence.
Qed.

(** C10: whenever [decodeValue] returns, the record it returns holds
    exactly one key, so [handleArray] never reaches its throw of
    "Not implemented", whatever the array of strings. *)
Theorem decodeValue_single_key :
  (forall value o,
      decodeValue Date_parse value = Ok o ->
      List.length (Obj.keys o) = 1%nat)
  /\ (forall values,
      handleArray Date_parse values <> Throw (Error "Not implemented")).
Proof.
  split.
  - intros value o H.
    destruct (decodeValue_shape _ H) as (k & x & -> & _).
    reflexivity.
  - intro values. apply handleFrom_not_unimplemented.
Qed.

(** C7: two occurrences of a key whose values decode to the same
    operator key are merged by [handleArray] into an [$and] of the two
    decoded records, first occurrence first, and [processQuery] stores
    that merge under the key; the earlier copy of [handleArray] merges
    the same way. *)
Theorem handleArray_merges_duplicates key v1 v2 k x1 x2 :
  isReserved key = false ->
  (decodeValue Date_parse v1 = Ok [(k, x1)] ->
   decodeValue Date_parse v2 = Ok [(k, x2)] ->
   handleArray Date_parse [v1; v2]
     = Ok [("$and", JArray [JObject [(k, x1)]; JObject [(k, x2)]])]
   /\ exists pq,
       processQuery Date_parse getQuery [(key, QArray [v1; v2])] = Ok pq
       /\ pq_filter pq
          = [(key,
              JObject
                [("$and", JArray [JObject [(k, x1)]; JObject [(k, x2)]])])])
  /\ (Filter0.decodeValue v1 = [(k, x1)] ->
      Filter0.decodeValue v2 = [(k, x2)] ->
      Filter0.handleArray [v1; v2]
      = Ok [("$and", JArray [JObject [(k, x1)]; JObject [(k, x2)]])]).
Proof.
  intros Hkey. split.
  - intros H1 H2.
    assert (Hk : String.eqb k "$and" = false).
    { apply eqb_neq_false, operatorKey_not_and.
      destruct (decodeValue_shape _ H1) as (k' & x' & E & Hin).
      inversion E. subst. exact Hin. }
    assert (Hk' : String.eqb "$and" k = false)
      by (rewrite String.eqb_sym; exact Hk).
    assert (HA : handleArray Date_parse [v1; v2]
                 = Ok [("$and", JArray [JObject [(k, x1)]; JObject [(k, x2)]])]).
    { unfold handleArray, handleFrom, handleElement.
      rewrite H1. simpl. rewrite H2. simpl.
      rewrite String.eqb_refl. simpl. rewrite Hk. simpl.
      rewrite String.eqb_refl, Hk'. reflexivity. }
    split; [exact HA|].
    unfold processQuery, restOf. simpl filter. rewrite Hkey. simpl negb.
    cbv iota. unfold decodeEntries. rewrite HA. simpl.
    assert (Hand : String.eqb key "and" = false)
      by (apply (isReserved_false _ Hkey); simpl; tauto).
    assert (Hor : String.eqb key "or" = false)
      by (apply (isReserved_false _ Hkey); simpl; tauto).
    assert (Hnot : String.eqb key "not" = false)
      by (apply (isReserved_false _ Hkey); simpl; tauto).
    rewrite Hand, Hor, Hnot. simpl. eexists. split; reflexivity.
  - intros H1 H2.
    assert (Hk : String.eqb k "$and" = false).
    { apply eqb_neq_false, operatorKey_not_and.
      destruct (decodeValue0_shape v1) as (k' & x' & E & Hin).
      rewrite H1 in E. inversion E. subst. exact Hin. }
    assert (Hk' : String.eqb "$and" k = false)
      by (rewrite String.eqb_sym; exact Hk).
    unfold Filter0.handleArray, Filter0.handleFrom, Filter0.handleElement.
    rewrite H1. simpl. rewrite H2. simpl.
    rewrite String.eqb_refl. simpl. rewrite Hk. simpl.
    rewrite String.eqb_refl, Hk'. reflexivity.
Qed.

(** C1: on ["~*foo"] the decoder answers [$like] with operand ["*foo"],
    and on ["!~*foo"] it answers [$nlike] with operand ["*foo"]: the test
    for the shorter sigil comes first.  No text at all decodes to
    [$ilike] or [$nilike].  The earlier copy does the same. *)
Theorem decodeValue_tilde_star :
  decodeValue Date_parse "~*foo" = Ok [("$like", JString "*foo")]
  /\ decodeValue Date_parse "!~*foo" = Ok [("$nlike", JString "*foo")]
  /\ (forall value o,
         decodeValue Date_parse value = Ok o ->
         Obj.get o "$ilike" = None /\ Obj.get o "$nilike" = None)
  /\ Filter0.decodeValue "~*foo" = [("$like", JString "*foo")]
  /\ Filter0.decodeValue "!~*foo" = [("$nlike", JString "*foo")]
  /\ (forall value,
         Obj.get (Filter0.decodeValue value) "$ilike" = None
         /\ Obj.get (Filter0.decodeValue value) "$nilike" = None).
Proof.
  split; [reflexivity|]. split; [reflexivity|]. split.
  { intros value o H.
    destruct (decodeValue_shape _ H) as (k & x & -> & Hin).
    unfold operatorKeys in Hin. simpl in Hin.
    repeat (destruct Hin as [<-|Hin]; [split; reflexivity|]).
    contradiction. }
  split; [reflexivity|]. split; [reflexivity|].
  intro value.
  destruct (decodeValue0_shape value) as (k & x & -> & Hin).
  unfold operatorKeys in Hin. simpl in Hin.
  repeat (destruct Hin as [<-|Hin]; [split; reflexivity|]).
  contradiction.
Qed.

(** C2: [castValue] throws on ["1.5"]: the number is no safe integer,
    and [BigInt] refuses the text.  The other examples of the coercion
    come out as stated, the last one when the engine reads no date in
    the text. *)
Theorem castValue_fraction_throws :
  castValue Date_parse "1.5" = Throw SyntaxError
  /\ castValue Date_parse "true" = Ok (JBool true)
  /\ castValue Date_parse "FALSE" = Ok (JBool false)
  /\ castValue Date_parse "Null" = Ok JNull
  /\ castValue Date_parse "42" = Ok (JNumber (ofZ 42))
  /\ castValue Date_parse "99999999999999999999"
     = Ok (JBigInt 99999999999999999999)
  /\ (forall t, Date_parse "2024-01-15" = Some t ->
        castValue Date_parse "2024-01-15" = Ok (JDate t))
  /\ (Date_parse "not-a-number" = None ->
      castValue Date_parse "not-a-number" = Ok (JString "not-a-number")).
Proof.
  repeat split; try (vm_compute; reflexivity).
  - intros t H. unfold castValue. cbn. now rewrite H.
  - intro H. unfold castValue. cbn. now rewrite H.
Qed.

(** *** The filter loop *)

Lemma keys_filter_incl (p : string * QValue -> bool) (l : ParsedQuery) k :
  In k (map fst (filter p l)) -> In k (map fst l).
Proof.
  induction l as [|a l IH]; simpl; [tauto|].
  destruct (p a); simpl; tauto.
Qed.

Lemma NoDup_keys_filter (p : string * QValue -> bool) (l : ParsedQuery) :
  NoDup (map fst l) -> NoDup (map fst (filter p l)).
Proof.
  induction l as [|a l IH]; simpl; intro H; [constructor|].
  inversion H as [|? ? Hnotin Hnd]. subst.
  destruct (p a); simpl; [|now apply IH].
  constructor; [|now apply IH].
  intro Hin. apply Hnotin. now apply keys_filter_incl in Hin.
Qed.

Lemma decodeEntries_get entries : forall acc f,
  decodeEntries Date_parse acc entries = Ok f ->
  NoDup (map fst entries) ->
  (forall k, ~ In k (map fst entries) -> Obj.get f k = Obj.get acc k)
  /\ (forall k v, In (k, QString v) entries ->
       exists d, decodeValue Date_parse v = Ok d
                 /\ Obj.get f k = Some (JObject d)).
Proof.
  induction entries as [|[key value] entries IH]; intros acc f H Hnd.
  - simpl in H. inversion H. subst. split; [reflexivity|]. intros k v [].
  - inversion Hnd as [|? ? Hnotin Hnd']. subst.
    assert (Hstep : exists d,
               match value with
               | QString s => decodeValue Date_parse s
               | QArray l => handleArray Date_parse l
               end = Ok d
               /\ decodeEntries Date_parse (Obj.set acc key (JObject d)) entries
                  = Ok f).
    { destruct value as [sv|lv]; simpl in H.
      - destruct (decodeValue Date_parse sv) as [d|e]; simpl in H;
          [exists d; split; [reflexivity | exact H] | discriminate].
      - destruct (handleArray Date_parse lv) as [d|e]; simpl in H;
          [exists d; split; [reflexivity | exact H] | discriminate]. }
    destruct Hstep as (d & Hd & Hrest).
    destruct (IH _ _ Hrest Hnd') as [Hout Hin].
    split.
    + intros k Hk. simpl in Hk. rewrite Hout by tauto.
      apply get_set_other. intro E. apply Hk. now left.
    + intros k v [E|Hmem].
      * inversion E. subst. exists d. split; [exact Hd|].
        rewrite (Hout k Hnotin). apply get_set_same.
      * now apply Hin.
Qed.

Lemma decodeEntries_total entries :
  (forall key value, In (key, value) entries -> decodes Date_parse value) ->
  forall acc, exists f, decodeEntries Date_parse acc entries = Ok f.
Proof.
  induction entries as [|[key value] entries IH]; intros Hall acc.
  - exists acc. reflexivity.
  - assert (Hv : decodes Date_parse value) by (apply (Hall key); now left).
    assert (Hrest : forall k v, In (k, v) entries -> decodes Date_parse v)
      by (intros k v Hin; apply (Hall k); now right).
    destruct value as [sv|lv]; destruct Hv as [d Hd]; simpl; rewrite Hd; simpl;
      apply IH; exact Hrest.
Qed.

Lemma addGroup_get filter name g f' k :
  addGroup Date_parse getQuery filter name g = Ok f' ->
  k <> name -> Obj.get f' k = Obj.get filter k.
Proof.
  unfold addGroup. intros H Hne.
  destruct g as [[sv|lv]|]; try discriminate.
  - destruct (String.eqb sv ""); [inversion H; reflexivity|].
    destruct (parseAndOrNot Date_parse getQuery sv); simpl in H; [|discriminate].
    inversion H. apply get_set_other. congruence.
  - inversion H. reflexivity.
Qed.

Lemma processQuery_filter q pq key value :
  NoDup (map fst q) ->
  processQuery Date_parse getQuery q = Ok pq ->
  In (key, QString value) q ->
  isReserved key = false ->
  ~ In key groupKeys ->
  exists d, decodeValue Date_parse value = Ok d
            /\ Obj.get (pq_filter pq) key = Some (JObject d).
Proof.
  intros Hnd H Hin Hres Hgrp. unfold processQuery in H.
  destruct (decodeEntries Date_parse [] (restOf q)) as [f0|] eqn:E0;
    simpl in H; [|discriminate].
  destruct (addGroup Date_parse getQuery f0 "$and" (Obj.get q "and"))
    as [f1|] eqn:E1; simpl in H; [|discriminate].
  destruct (addGroup Date_parse getQuery f1 "$or" (Obj.get q "or"))
    as [f2|] eqn:E2; simpl in H; [|discriminate].
  destruct (addGroup Date_parse getQuery f2 "$not" (Obj.get q "not"))
    as [f3|] eqn:E3; simpl in H; [|discriminate].
  inversion H. subst pq. simpl.
  destruct (decodeEntries_get _ _ E0 (NoDup_keys_filter _ _ Hnd))
    as [_ Hstored].
  destruct (Hstored key value) as (d & Hd & Hget).
  { unfold restOf. apply filter_In. split; [exact Hin|].
    simpl. now rewrite Hres. }
  exists d. split; [exact Hd|].
  unfold groupKeys in Hgrp. simpl in Hgrp.
  rewrite (@addGroup_get _ _ _ _ key E3)
    by (intro Ek; apply Hgrp; rewrite Ek; auto).
  rewrite (@addGroup_get _ _ _ _ key E2)
    by (intro Ek; apply Hgrp; rewrite Ek; auto).
  rewrite (@addGroup_get _ _ _ _ key E1)
    by (intro Ek; apply Hgrp; rewrite Ek; auto).
  exact Hget.
Qed.

Lemma decodeEntries_throws entries key value :
  In (key, value) entries -> ~ decodes Date_parse value ->
  forall acc, exists e, decodeEntries Date_parse acc entries = Throw e.
Proof.
  induction entries as [|[k v] entries IH]; intros Hin Hbad acc; [destruct Hin|].
  destruct Hin as [E|Hin].
  - inversion E. subst k v. destruct value as [sv|lv]; simpl in *.
    + destruct (decodeValue Date_parse sv) as [d|e];
        [exfalso; apply Hbad; now exists d | now exists e].
    + destruct (handleArray Date_parse lv) as [d|e];
        [exfalso; apply Hbad; now exists d | now exists e].
  - destruct v as [sv|lv]; simpl.
    + destruct (decodeValue Date_parse sv) as [d|e]; simpl;
        [now apply IH | now exists e].
    + destruct (handleArray Date_parse lv) as [d|e]; simpl;
        [now apply IH | now exists e].
Qed.

Lemma processQuery_total q :
  (forall key value, In (key, value) (restOf q) -> decodes Date_parse value) ->
  Obj.get q "and" = None -> Obj.get q "or" = None -> Obj.get q "not" = None ->
  exists pq, processQuery Date_parse getQuery q = Ok pq.
Proof.
  intros Hall Hand Hor Hnot. unfold processQuery.
  destruct (decodeEntries_total _ Hall []) as [f Hf].
  rewrite Hf, Hand, Hor, Hnot. simpl. eexists. reflexivity.
Qed.

(** C3, as the code has it: the parser takes any non-reserved key,
    named by an allow-list or not.  Its answer is the same under every
    options record; when it returns, a non-reserved key with a string
    value holds the decoded value in the filter; it does return when
    every value decodes and no group is present; and it throws, with no
    filter at all, when some value does not decode.  The select of
    [list] has no [where], whatever the query. *)
Theorem useDrizzleRestFilter_consults_no_allow_list q options :
  NoDup (map fst q) ->
  (forall options',
      useDrizzleRestFilter Date_parse getQuery (inr q) options'
      = useDrizzleRestFilter Date_parse getQuery (inr q) options)
  /\ (forall rf key value,
         useDrizzleRestFilter Date_parse getQuery (inr q) options = Ok rf ->
         In (key, QString value) q ->
         isReserved key = false ->
         ~ In key groupKeys ->
         exists d, decodeValue Date_parse value = Ok d
                   /\ Obj.get (filter_query rf) key = Some (JObject d))
  /\ ((forall key value, In (key, value) (restOf q) -> decodes Date_parse value) ->
      Obj.get q "and" = None -> Obj.get q "or" = None ->
      Obj.get q "not" = None ->
      exists rf,
        useDrizzleRestFilter Date_parse getQuery (inr q) options = Ok rf)
  /\ (forall key value,
         In (key, value) (restOf q) -> ~ decodes Date_parse value ->
         exists e,
           useDrizzleRestFilter Date_parse getQuery (inr q) options = Throw e)
  /\ (forall v lo ordering,
         APIView.sel_where (APIView.listQuery v lo q ordering) = None).
Proof.
  intro Hnd. split; [reflexivity|]. split; [|split; [|split]].
  - intros rf key value H Hin Hres Hgrp. unfold useDrizzleRestFilter in H.
    destruct (processQuery Date_parse getQuery q) as [pq|] eqn:E;
      simpl in H; [|discriminate].
    inversion H. subst rf. simpl.
    exact (processQuery_filter _ _ Hnd E Hin Hres Hgrp).
  - intros Hall Hand Hor Hnot. unfold useDrizzleRestFilter.
    destruct (processQuery_total _ Hall Hand Hor Hnot) as [pq Hpq].
    rewrite Hpq. simpl. eexists. reflexivity.
  - intros key value Hin Hbad.
    unfold useDrizzleRestFilter, processQuery.
    destruct (@decodeEntries_throws _ _ _ Hin Hbad []) as [e He].
    rewrite He. simpl. now exists e.
  - reflexivity.
Qed.

End FilterFacts.


(** ** The resource view *)

Section ViewFacts.

Import Js APIView.

Implicit Types (v : View) (lo : ListOptions) (ko : KeyedOptions)
  (ev : H3Event) (q : ParsedQuery).

#[local] Arguments parse : simpl never.
#[local] Arguments parseArray : simpl never.

(** The spec's example of a page count: 25 rows in pages of 10. *)
Example pageCount_25_by_10 : ceil (div (ofZ 25) (ofZ 10)) = ofZ 3.
Proof. reflexivity. Qed.

(** [list] builds no [where]: the filter fields are never read. *)
Lemma list_applies_no_filter v lo q ordering :
  sel_where (listQuery v lo q ordering) = None.
Proof. reflexivity. Qed.

(** C4, as the code has it: when the select of [retrieve] returns no
    row, the call throws the validator's error for an [undefined] input,
    and when it returns one row, the answer is that row put through
    the retrieve schema. *)
Theorem retrieve_no_row_is_ZodError v ko ev rows :
  optField (handlers (options v)) h_retrieve = None ->
  keyedEvent v ko = Some ev ->
  select (db (options v)) (retrieveQuery v ko ev) = Ok rows ->
  (rows = [] -> retrieve v ko = Throw ZodError)
  /\ (forall r, rows = [r] ->
       retrieve v ko
       = (x <- parse (retrieveSchema v ko) (Some (rowObject r)) ;; Ok (Row x))).
Proof.
  intros Hh Hev Hsel. unfold retrieve. rewrite Hh, Hev. simpl.
  rewrite Hsel. simpl.
  split; [intros -> | intros r ->]; reflexivity.
Qed.

(** C9: [update] returns a row exactly when the body passes the update
    schema, the database returns a first row for the validated values,
    and that row passes the retrieve schema of the view; the row it
    returns is the outcome of the retrieve schema. *)
Theorem update_returns_retrieve_shape v ko ev reply :
  optField (handlers (options v)) h_update = None ->
  keyedEvent v ko = Some ev ->
  (update v ko = Ok reply <->
   exists values row rest payload,
     parse (updateSchema v ko) (body ev) = Ok values
     /\ update_returning (db (options v)) values (updateKey v ko)
          (getRouterParam ev (updateKey v ko)) = Ok (row :: rest)
     /\ parse (schema_retrieve v) (Some row) = Ok payload
     /\ reply = Row payload).
Proof.
  intros Hh Hev. unfold update. rewrite Hh, Hev. simpl. split.
  - intro H.
    destruct (parse (updateSchema v ko) (body ev)) as [values|] eqn:Eb;
      simpl in H; [|discriminate].
    destruct (update_returning (db (options v)) values (updateKey v ko)
                (getRouterParam ev (updateKey v ko)))
      as [[|row rest]|] eqn:Eu; simpl in H; try discriminate.
    destruct (parse (schema_retrieve v) (Some row)) as [payload|] eqn:Er;
      simpl in H; [|discriminate].
    exists values, row, rest, payload. inversion H. auto.
  - intros (values & row & rest & payload & Eb & Eu & Er & ->).
    rewrite Eb. simpl. rewrite Eu. simpl. rewrite Er. reflexivity.
Qed.

(** C5: with no row in the result, [list] throws a [TypeError] where it
    reads the count of the first row; when it answers with a page, the
    page count is the ceiling of the count over the page size, the count
    being that of the first row. *)
Theorem list_no_row_is_TypeError v lo ev ordering rows :
  optField (handlers (options v)) h_list = None ->
  listEvent v lo = Some ev ->
  orderingOf (options v) (query ev) = Ok ordering ->
  select (db (options v)) (listQuery v lo (query ev) ordering) = Ok rows ->
  (rows = [] -> list v lo = Throw TypeError)
  /\ (forall p, list v lo = Ok (ListPaginated p) ->
       pageCount p = ceil (div (count p) (pageSize p))
       /\ exists r rest,
           rows = r :: rest
           /\ count p
          = nullish (windowCount r) (ofZ (Z.of_nat (List.length rows)))).
Proof.
  intros Hh Hev Hord Hsel. unfold list. rewrite Hh, Hev. simpl.
  rewrite Hord. simpl. rewrite Hsel. simpl. split.
  - intros ->. reflexivity.
  - intros p H. destruct rows as [|r rest]; [discriminate|].
    unfold countOf in H. cbn [bind] in H.
    destruct (paginateOf (listCanPaginate v lo) (query ev));
      destruct (parseArray (listSchema v lo) (map rowObject (r :: rest)));
      cbn [bind] in H; try discriminate.
    inversion H. simpl. split; [reflexivity|].
    exists r, rest. split; reflexivity.
Qed.


End ViewFacts.

(** ** The ordering parameter *)

Lemma prefix_single (a c : ascii) (s : string) :
  String.prefix (String a EmptyString) (String c s) = Ascii.eqb a c.
Proof.
  simpl. destruct (ascii_dec a c) as [->|Hne].
  - rewrite Ascii.eqb_refl. now destruct s.
  - symmetry. now apply Ascii.eqb_neq.
Qed.

Lemma string_eqb_cons (a b : ascii) (s t : string) :
  String.eqb (String a s) (String b t)
  = if Ascii.eqb a b then String.eqb s t else false.
Proof. reflexivity. Qed.

Lemma split_comma (s : string) :
  Js.split s ","
  = fst (breakComma s)
      :: match snd (breakComma s) with
         | None => []
         | Some r => Js.split r ","
         end.
Proof.
  unfold Js.split. induction s as [|c s IH]; [reflexivity|].
  cbn [Js.splitGo breakComma]. rewrite prefix_single, Ascii.eqb_sym.
  destruct (Ascii.eqb c ","); [reflexivity|].
  rewrite IH. destruct (breakComma s) as [t r]. reflexivity.
Qed.

Lemma breakComma_length (s r : string) :
  snd (breakComma s) = Some r -> (String.length r < String.length s)%nat.
Proof.
  revert r. induction s as [|c s IH]; intros r; simpl; [discriminate|].
  destruct (Ascii.eqb c ",").
  - simpl. intro H. inversion H. lia.
  - destruct (breakComma s) as [t r'] eqn:E. simpl in *.
    intro H. specialize (IH r H). lia.
Qed.

Lemma existsb_ext_in {A : Type} (f g : A -> bool) (l : list A) :
  (forall x, In x l -> f x = g x) -> existsb f l = existsb g l.
Proof.
  induction l as [|a l IH]; intro H; [reflexivity|]. simpl.
  rewrite (H a) by now left. rewrite IH; [reflexivity|].
  intros x Hx. apply H. now right.
Qed.

Lemma existsb_andb_const {A : Type} (f : A -> bool) (b : bool) (l : list A) :
  existsb (fun x => f x && b) l = existsb f l && b.
Proof.
  induction l as [|a l IH]; [reflexivity|]. simpl. rewrite IH.
  destruct (f a), b, (existsb f l); reflexivity.
Qed.

Lemma allChars_impl (p q : ascii -> bool) (s : string) :
  (forall c, p c = true -> q c = true) ->
  allChars p s = true -> allChars q s = true.
Proof.
  intro H. induction s as [|c s IH]; [reflexivity|]. simpl.
  intro Hs. apply andb_true_iff in Hs as [Hc Hs].
  now rewrite (H c Hc), IH.
Qed.

Lemma isWordChar_not_sigil (c : ascii) :
  isWordChar c = true -> Ascii.eqb c "," = false /\ Ascii.eqb c "-" = false.
Proof.
  destruct c as [[] [] [] [] [] [] [] []]; vm_compute; intro H;
    first [discriminate H | split; reflexivity].
Qed.

Lemma plainField_noComma (f : string) : plainField f = true -> noComma f = true.
Proof.
  apply allChars_impl. intros c Hc.
  now destruct (isWordChar_not_sigil c Hc) as [-> _].
Qed.

Lemma plainField_cleaned (f : string) :
  plainField f = true -> APIView.cleanedPart f = f.
Proof.
  destruct f as [|c f]; [reflexivity|]. simpl.
  intro H. apply andb_true_iff in H as [Hc _].
  now destruct (isWordChar_not_sigil c Hc) as [_ ->].
Qed.

(** One item of the pattern against the text: it matches when it is the
    text up to the first comma, and then the rest is left to match. *)
Lemma item_step (M : string -> bool) (item : string) : forall s,
  noComma item = true ->
  match APIView.afterPrefix item s with
  | Some EmptyString => true
  | Some (String c rest) => if Ascii.eqb c "," then M rest else false
  | None => false
  end
  = String.eqb item (fst (breakComma s))
    && match snd (breakComma s) with
       | None => true
       | Some r => M r
       end.
Proof.
  induction item as [|a item IH]; intros s Hitem.
  - destruct s as [|c s]; [reflexivity|]. simpl.
    destruct (Ascii.eqb c ","); [reflexivity|].
    now destruct (breakComma s).
  - simpl in Hitem. apply andb_true_iff in Hitem as [Ha Hitem].
    apply negb_true_iff in Ha.
    destruct s as [|c s]; [reflexivity|]. simpl.
    destruct (Ascii.eqb a c) eqn:Eac.
    + apply Ascii.eqb_eq in Eac. subst c. rewrite Ha.
      rewrite (IH s Hitem). destruct (breakComma s) as [t r]. simpl.
      now rewrite string_eqb_cons, Ascii.eqb_refl.
    + destruct (Ascii.eqb c ","); [reflexivity|].
      destruct (breakComma s) as [t r]. simpl.
      now rewrite string_eqb_cons, Eac.
Qed.

Lemma alternatives_fields (fields : list string) :
  fields <> [] -> APIView.alternatives fields = fields.
Proof. destruct fields; [congruence | reflexivity]. Qed.

Section OrderingFacts.

Import Js APIView.

Variable fields : Datatypes.list string.
Hypothesis fields_plain : Forall (fun f => plainField f = true) fields.

Let items : Datatypes.list string := fields ++ map (String "-") fields.

Lemma items_noComma item : In item items -> noComma item = true.
Proof.
  pose proof (proj1 (Forall_forall _ _) fields_plain) as Hplain.
  unfold items. rewrite in_app_iff, in_map_iff.
  intros [H|(f & <- & H)].
  - now apply plainField_noComma, Hplain.
  - change (noComma (String "-" f)) with (noComma f).
    now apply plainField_noComma, Hplain.
Qed.

Lemma items_allowed part :
  existsb (fun item => String.eqb item part) items = tokenAllowed fields part.
Proof.
  pose proof (proj1 (Forall_forall _ _) fields_plain) as Hplain.
  apply eq_true_iff_eq. unfold tokenAllowed, items.
  rewrite !existsb_exists. split.
  - intros (item & Hin & E). apply String.eqb_eq in E. subst item.
    apply in_app_iff in Hin as [H|H].
    + exists part. split; [exact H|].
      rewrite (plainField_cleaned _ (Hplain _ H)).
      apply String.eqb_refl.
    + apply in_map_iff in H as (f & <- & H).
      exists f. split; [exact H|]. simpl. apply String.eqb_refl.
  - intros (f & Hin & E). apply String.eqb_eq in E. subst f.
    exists part. split; [|apply String.eqb_refl].
    apply in_app_iff. destruct part as [|c part]; [now left|].
    simpl in Hin. destruct (Ascii.eqb c "-") eqn:Ec; [|now left].
    apply Ascii.eqb_eq in Ec. subst c.
    right. apply in_map_iff. now exists part.
Qed.

Lemma matchItems_step n s :
  matchItems (S n) fields s
  = tokenAllowed fields (fst (breakComma s))
    && match snd (breakComma s) with
       | None => true
       | Some r => matchItems n fields r
       end.
Proof.
  cbn [matchItems]. fold items.
  rewrite existsb_ext_in with
    (g := fun item =>
            String.eqb item (fst (breakComma s))
            && match snd (breakComma s) with
               | None => true
               | Some r => matchItems n fields r
               end).
  - now rewrite existsb_andb_const, items_allowed.
  - intros item Hin. apply item_step. now apply items_noComma.
Qed.

(** The pattern accepts a text exactly when each of its parts between
    commas is a field, with or without a dash before it. *)
Lemma matchItems_tokens n : forall s,
  (String.length s < n)%nat ->
  matchItems n fields s = forallb (tokenAllowed fields) (split s ",").
Proof.
  induction n as [|n IH]; intros s Hlen; [lia|].
  rewrite matchItems_step, split_comma. cbn [forallb].
  destruct (snd (breakComma s)) as [r|] eqn:E.
  - rewrite IH; [reflexivity|].
    apply breakComma_length in E. lia.
  - reflexivity.
Qed.

(** An allowed part is a field, ascending, or a dash and a field,
    descending. *)
Lemma tokenAllowed_shape part :
  tokenAllowed fields part = true ->
  (In part fields /\ pairOf part = (part, asc))
  \/ (exists f, In f fields /\ part = String "-" f /\ pairOf part = (f, desc)).
Proof.
  pose proof (proj1 (Forall_forall _ _) fields_plain) as Hplain.
  unfold tokenAllowed. rewrite existsb_exists.
  intros (f & Hin & E). apply String.eqb_eq in E. subst f.
  destruct part as [|c part]; [left; split; [exact Hin | reflexivity]|].
  unfold pairOf, directionOf, startsWith. rewrite prefix_single.
  cbn [cleanedPart] in *. rewrite (Ascii.eqb_sym "-" c).
  destruct (Ascii.eqb c "-") eqn:Ec.
  - apply Ascii.eqb_eq in Ec. subst c. right. now exists part.
  - left. split; [exact Hin | reflexivity].
Qed.


End OrderingFacts.

(** ** The claims on sample requests *)

Section Samples.

Import Js Filter APIView.

(** C7 on the query [name=~An&name=~nn]. *)
Lemma handleArray_merges_duplicates_sample :
  decodeValue Sample.Date_parse "~An" = Ok [("$like", JString "An")]
  /\ decodeValue Sample.Date_parse "~nn" = Ok [("$like", JString "nn")]
  /\ handleArray Sample.Date_parse ["~An"; "~nn"]
     = Ok [("$and",
            JArray [JObject [("$like", JString "An")];
                    JObject [("$like", JString "nn")]])]
  /\ Filter0.handleArray ["~An"; "~nn"]
     = Ok [("$and",
            JArray [JObject [("$like", JString "An")];
                    JObject [("$like", JString "nn")]])].
Proof.
  split; [reflexivity|]. split; [reflexivity|].
  destruct (@handleArray_merges_duplicates Sample.Date_parse Sample.getQuery
              "name" "~An" "~nn" "$like" (JString "An") (JString "nn")
              eq_refl) as [Hnew Hold].
  split.
  - exact (proj1 (Hnew eq_refl eq_refl)).
  - exact (Hold eq_refl eq_refl).
Defined.

(** C3 on a query that names [foo] while the allow-list names [age]:
    the value of [foo] is decoded and kept. *)
Lemma useDrizzleRestFilter_unlisted_field_sample :
  exists rf,
    useDrizzleRestFilter Sample.Date_parse Sample.getQuery
      (inr [("age", QString ">=18"); ("foo", QString "bar")]) Sample.onlyAge
    = Ok rf
    /\ exists d,
        decodeValue Sample.Date_parse "bar" = Ok d
        /\ Obj.get (filter_query rf) "foo" = Some (JObject d).
Proof.
  assert (Hnd : NoDup (map fst [("age", QString ">=18");
                                ("foo", QString "bar")])).
  { repeat constructor; simpl; intuition discriminate. }
  destruct (@useDrizzleRestFilter_consults_no_allow_list
              Sample.Date_parse Sample.getQuery _ Sample.onlyAge Hnd)
    as (_ & Hstored & Htotal & _ & _).
  destruct Htotal as [rf Hrf]; try reflexivity.
  { intros key value [E|[E|[]]]; inversion E; subst; eexists; reflexivity. }
  exists rf. split; [exact Hrf|].
  apply (Hstored rf "foo" "bar" Hrf).
  - simpl. auto.
  - reflexivity.
  - simpl. intuition discriminate.
Defined.

(** C3 as stated fails: with the allow-list naming [age] alone, the
    query [foo=bar] is parsed without error, whatever the engine and
    the tokenizer, and [foo] is in the filter; and [list] on a view
    whose filter fields are [age] alone answers the same query with
    every row. *)
Lemma unlisted_filter_field_accepted :
  (exists rf,
      (forall Date_parse getQuery,
          useDrizzleRestFilter Date_parse getQuery
            (inr [("foo", QString "bar")]) Sample.onlyAge = Ok rf)
      /\ filter_query rf = [("foo", JObject [("$eq", JString "bar")])])
  /\ list (Sample.peopleView Sample.people
             (Sample.request [("foo", QString "bar")] [] None))
          Sample.noListOptions
     = Ok (ListPlain Sample.people).
Proof.
  split.
  { exists {| filter_query := [("foo", JObject [("$eq", JString "bar")])];
            sort_query := QString "id";
            search_query := QString "";
            pagination_query := (ofZ 1, ofZ 10);
            pagination_limit := ofZ 10;
            pagination_offset := ofZ 0 |}.
    split; [intros; reflexivity | reflexivity]. }
  reflexivity.
Qed.



(** C4 on the people table: no person 9, and person 2. *)
Lemma retrieve_sample :
  retrieve (Sample.peopleView Sample.people (Sample.personRequest "9" None))
    Sample.noKeyedOptions = Throw ZodError
  /\ retrieve (Sample.peopleView Sample.people (Sample.personRequest "2" None))
       Sample.noKeyedOptions = Ok (Row (Sample.person "2" "Bob" 17)).
Proof.
  split.
  - apply (proj1 (@retrieve_no_row_is_ZodError
                    (Sample.peopleView Sample.people
                       (Sample.personRequest "9" None))
                    Sample.noKeyedOptions (Sample.personRequest "9" None) []
                    eq_refl eq_refl eq_refl)).
    reflexivity.
  - rewrite (proj2 (@retrieve_no_row_is_ZodError
                      (Sample.peopleView Sample.people
                         (Sample.personRequest "2" None))
                      Sample.noKeyedOptions (Sample.personRequest "2" None)
                      [{| fields := Sample.person "2" "Bob" 17;
                          windowCount := None |}]
                      eq_refl eq_refl eq_refl) _ eq_refl).
    reflexivity.
Defined.

(** C4 as stated fails: a key that matches no row gives the validator's
    error, the same a stored row that fails the schema gives; nothing
    tells a missing row apart. *)
Lemma retrieve_missing_is_not_NotFound :
  retrieve (Sample.peopleView Sample.people (Sample.personRequest "9" None))
    Sample.noKeyedOptions = Throw ZodError
  /\ retrieve
       (Sample.peopleView [[("id", JString "7"); ("name", JString "Di")]]
          (Sample.personRequest "7" None))
       Sample.noKeyedOptions = Throw ZodError.
Proof. split; reflexivity. Qed.

(** C9 on the people table: person 2 renamed to Rob, aged 18; the body
    has no [id], the answer has. *)
Lemma update_sample :
  update
    (Sample.peopleView Sample.people
       (Sample.personRequest "2"
          (Some [("name", JString "Rob"); ("age", JNumber (ofZ 18))])))
    Sample.noKeyedOptions
  = Ok (Row (Sample.person "2" "Rob" 18)).
Proof.
  apply (proj2 (@update_returns_retrieve_shape
                  (Sample.peopleView Sample.people
                     (Sample.personRequest "2"
                        (Some [("name", JString "Rob");
                               ("age", JNumber (ofZ 18))])))
                  Sample.noKeyedOptions
                  (Sample.personRequest "2"
                     (Some [("name", JString "Rob");
                            ("age", JNumber (ofZ 18))]))
                  (Row (Sample.person "2" "Rob" 18)) eq_refl eq_refl)).
  exists [("name", JString "Rob"); ("age", JNumber (ofZ 18))],
    (Sample.person "2" "Rob" 18), [], (Sample.person "2" "Rob" 18).
  repeat split; reflexivity.
Defined.

(** C5 on an empty people table, with paging forced and without. *)
Lemma list_empty_table_sample :
  list (Sample.peopleView [] (Sample.request [] [] None)) Sample.forced
  = Throw TypeError
  /\ list (Sample.peopleView [] (Sample.request [] [] None))
       Sample.noListOptions
     = Throw TypeError.
Proof.
  split.
  - apply (proj1 (@list_no_row_is_TypeError
                    (Sample.peopleView [] (Sample.request [] [] None))
                    Sample.forced (Sample.request [] [] None) None []
                    eq_refl eq_refl eq_refl eq_refl)).
    reflexivity.
  - apply (proj1 (@list_no_row_is_TypeError
                    (Sample.peopleView [] (Sample.request [] [] None))
                    Sample.noListOptions (Sample.request [] [] None) None []
                    eq_refl eq_refl eq_refl eq_refl)).
    reflexivity.
Defined.


End Samples.

(** * More properties of the code *)

(** ** Texts *)

Lemma append_nil_r (s : string) : (s ++ "")%string = s.
Proof. induction s as [|c s IH]; simpl; [reflexivity | now rewrite IH]. Qed.

Lemma append_assoc (a b c : string) :
  ((a ++ b) ++ c)%string = (a ++ (b ++ c))%string.
Proof. induction a as [|x a IH]; simpl; [reflexivity | now rewrite IH]. Qed.

Lemma revString_acc (s : string) : forall acc,
  Js.revString acc s = (Js.revString "" s ++ acc)%string.
Proof.
  induction s as [|c s IH]; intro acc; simpl; [reflexivity|].
  rewrite (IH (String c acc)), (IH (String c "")), append_assoc.
  reflexivity.
Qed.

Lemma revString_append (a b : string) :
  Js.revString "" (a ++ b) = (Js.revString "" b ++ Js.revString "" a)%string.
Proof.
  induction a as [|c a IH]; simpl.
  - now rewrite append_nil_r.
  - rewrite (revString_acc (a ++ b)), IH, append_assoc.
    now rewrite <- (revString_acc a).
Qed.

Lemma trimStart_keeps_last (x : string) (c : ascii) :
  Js.isWhiteSpace c = false ->
  exists y, Js.trimStart (x ++ String c "") = (y ++ String c "")%string.
Proof.
  intro Hc. induction x as [|d x IH]; simpl.
  - rewrite Hc. now exists EmptyString.
  - destruct (Js.isWhiteSpace d); [exact IH|].
    now exists (String d x).
Qed.

(** Trimming keeps a first character that is no white space. *)
Lemma trim_first (c : ascii) (s : string) :
  Js.isWhiteSpace c = false -> exists t, Js.trim (String c s) = String c t.
Proof.
  intro Hc. unfold Js.trim.
  assert (E : Js.trimStart (String c s) = String c s) by (simpl; now rewrite Hc).
  rewrite E.
  assert (R : Js.revString "" (String c s)
              = (Js.revString "" s ++ String c "")%string)
    by (simpl; apply revString_acc).
  rewrite R.
  destruct (trimStart_keeps_last (Js.revString "" s) c Hc) as [y ->].
  rewrite revString_append. simpl. now exists (Js.revString "" y).
Qed.

(** A text that starts with a sigil character is no number. *)
Lemma Number_sigil (c : ascii) (s : string) :
  In c sigilChars -> Js.Number (String c s) = Js.NaN.
Proof.
  unfold sigilChars. simpl.
  intros [<-|[<-|[<-|[<-|[<-|[]]]]]];
    match goal with
    | |- Js.Number (String ?a _) = _ =>
        destruct (@trim_first a s eq_refl) as [t Ht];
        unfold Js.Number; rewrite Ht; reflexivity
    end.
Qed.

Lemma prefix_empty (s : string) : String.prefix "" s = true.
Proof. now destruct s. Qed.

Lemma prefix_cons (a c : ascii) (p s : string) :
  String.prefix (String a p) (String c s)
  = if Ascii.eqb a c then String.prefix p s else false.
Proof.
  simpl. destruct (ascii_dec a c) as [->|Hne].
  - now rewrite Ascii.eqb_refl.
  - apply Ascii.eqb_neq in Hne. now rewrite Hne.
Qed.

(** A text is its prefix followed by what [substring] leaves of it. *)
Lemma prefix_drop (p : string) : forall s,
  String.prefix p s = true -> s = (p ++ Js.dropChars (String.length p) s)%string.
Proof.
  induction p as [|a p IH]; intros s H; [reflexivity|].
  destruct s as [|c s]; [discriminate|].
  rewrite prefix_cons in H. destruct (Ascii.eqb a c) eqn:E; [|discriminate].
  apply Ascii.eqb_eq in E. subst c. simpl. f_equal. now apply IH.
Qed.

(** ** The grammar of the decoder, by first character *)

Section GrammarFacts.

Import Js Filter.

Variable Date_parse : string -> option Z.

Lemma includes_other (c a : ascii) (s sub : string) :
  Ascii.eqb a c = false ->
  includes (String c s) (String a sub) = includes s (String a sub).
Proof.
  intro H. cbn [includes]. rewrite prefix_cons, H. reflexivity.
Qed.

Lemma string_eqb_nil_r (a : ascii) (s : string) :
  String.eqb (String a s) "" = false.
Proof. reflexivity. Qed.

Ltac decode_head :=
  unfold decodeValue; rewrite Number_sigil by (simpl; tauto);
  unfold startsWith, removePrefix, NaN;
  rewrite ?string_eqb_cons, ?string_eqb_nil_r, ?prefix_cons, ?prefix_empty;
  cbn [Ascii.eqb Bool.eqb isNaN negb String.length dropChars andb].

(** X1.  A value that starts with [>] or [<] is a comparison whatever
    follows, a range or a list included: with [=] next the bound is what
    follows the two characters, otherwise what follows the one. *)
Theorem decodeValue_comparison (r : string) :
  decodeValue Date_parse (String ">" r)
  = (if startsWith r "="
     then x <- castNumberish Date_parse (dropChars 1 r) ;; Ok [("$gte", x)]
     else x <- castNumberish Date_parse r ;; Ok [("$gt", x)])
  /\ decodeValue Date_parse (String "<" r)
     = (if startsWith r "="
        then x <- castNumberish Date_parse (dropChars 1 r) ;; Ok [("$lte", x)]
        else x <- castNumberish Date_parse r ;; Ok [("$lt", x)]).
Proof.
  split; decode_head; reflexivity.
Qed.

(** X2.  A value that starts with [!] and goes on is, in this order of
    precedence, an excluded range, an excluded list, a negated pattern or
    an inequality with the rest as a raw string. *)
Theorem decodeValue_bang (r : string) :
  r <> "" ->
  decodeValue Date_parse (String "!" r)
  = if includes r ".." then
      xs <- castPair Date_parse (split r "..") ;; Ok [("$nbetween", JArray xs)]
    else if includes r "," then
      xs <- castArray Date_parse (split r ",") ;; Ok [("$nin", JArray xs)]
    else if startsWith r "~" then Ok [("$nlike", JString (dropChars 1 r))]
    else Ok [("$ne", JString r)].
Proof.
  intro Hr. decode_head. rewrite (@eqb_neq_false r "" Hr).
  rewrite !includes_other by reflexivity.
  destruct (includes r ".."); [reflexivity|].
  destruct (includes r ","); [reflexivity|].
  destruct (prefix "~" r) eqn:E; [reflexivity|].
  destruct (prefix "~*" r) eqn:E'; [|reflexivity].
  pose proof (prefix_append_l "~" "*" r E'). congruence.
Qed.

(** X3.  A value that starts with [~] is a range or a list of which the
    tilde is part, and otherwise a pattern; one that starts with [@] is a
    range, with a comma a containment test, and otherwise a plain
    equality with the whole text. *)
Theorem decodeValue_tilde_at (r : string) :
  decodeValue Date_parse (String "~" r)
  = (if includes r ".." then
       xs <- castPair Date_parse (split (String "~" r) "..") ;;
       Ok [("$between", JArray xs)]
     else if includes r "," then
       xs <- castArray Date_parse (split (String "~" r) ",") ;;
       Ok [("$in", JArray xs)]
     else Ok [("$like", JString r)])
  /\ decodeValue Date_parse (String "@" r)
     = (if includes r ".." then
          xs <- castPair Date_parse (split (String "@" r) "..") ;;
          Ok [("$between", JArray xs)]
        else if includes r "," then
          if startsWith r ">" then
            xs <- mapM (castValue Date_parse) (split (dropChars 1 r) ",") ;;
            Ok [("$contained", JArray xs)]
          else Ok [("$contains", JString r)]
        else Ok [("$eq", JString (String "@" r))]).
Proof.
  split; decode_head; rewrite !includes_other by reflexivity.
  - destruct (includes r ".."); [reflexivity|].
    destruct (includes r ","); reflexivity.
  - destruct (includes r ".."); [reflexivity|].
    destruct (includes r ","); [|reflexivity].
    unfold startsWith. destruct (prefix ">" r); reflexivity.
Qed.

End GrammarFacts.

(** ** The operands of the decoder *)

Lemma mapM_Forall2 {A B : Type} (f : A -> Result B) (l : list A) :
  forall l', mapM f l = Ok l' <-> Forall2 (fun a b => f a = Ok b) l l'.
Proof.
  induction l as [|a l IH]; intro l'; simpl.
  - split; intro H; [inversion H; constructor | inversion H; reflexivity].
  - destruct (f a) as [b|e] eqn:Ea; simpl.
    + destruct (mapM f l) as [bs|e] eqn:El; simpl.
      * split; intro H.
        -- inversion H. subst. constructor; [exact Ea | now apply IH].
        -- inversion H as [|? b' ? bs' Hb Hbs]. subst.
           apply IH in Hbs. congruence.
      * split; intro H; [discriminate|].
        inversion H as [|? b' ? bs' Hb Hbs]. subst.
        apply IH in Hbs. discriminate.
    + split; intro H; [discriminate|].
      inversion H as [|? b' ? bs' Hb Hbs]. congruence.
Qed.

Section OperandFacts.

Import Js Filter.

Variable Date_parse : string -> option Z.

Ltac branches H :=
  repeat match type of H with
    | context [if ?c then _ else _] =>
        let E := fresh "C" in destruct c eqn:E
    | context [bind ?r _] => let E := fresh "E" in destruct r eqn:E; simpl in H
    | context [match ?r with Some _ => _ | None => _ end] =>
        let E := fresh "E" in destruct r eqn:E
    end.

Lemma castNumberish_numberish value x :
  castNumberish Date_parse value = Ok x -> numberish x = true.
Proof.
  unfold castNumberish. intro H.
  branches H; inversion H; subst; simpl; auto.
Qed.

(** X4.  What [castValue] returns is a scalar: a number only when it is a
    safe integer, never a fraction, an infinity or NaN; a string result is
    the text itself, a number result is [Number] of the text, a big
    integer or a date comes only from a text that is no safe integer. *)
Theorem castValue_scalar value x :
  castValue Date_parse value = Ok x ->
  scalar x = true
  /\ (forall s, x = JString s -> s = value)
  /\ (forall n, x = JNumber n -> n = Number value /\ isSafeInteger n = true)
  /\ (forall z, x = JBigInt z ->
        BigInt value = Some z /\ isSafeInteger (Number value) = false)
  /\ (forall t, x = JDate t ->
        Date_parse value = Some t /\ isNaN (Number value) = true).
Proof.
  unfold castValue. intro H.
  branches H; inversion H; subst; simpl;
    repeat match goal with
      | |- _ /\ _ => split
      | |- forall _, _ = _ -> _ =>
          let Hx := fresh "Hx" in intros ? Hx; inversion Hx; subst; clear Hx
      end;
    auto.
  - apply String.eqb_eq in C. now subst.
  - now destruct (isNaN (Number value)).
Qed.

Lemma castValue_is_scalar value x :
  castValue Date_parse value = Ok x -> scalar x = true.
Proof.
  unfold castValue. intro H.
  branches H; inversion H; subst; simpl; auto.
Qed.

Lemma typeof_uniform (xs : list JsValue) :
  forallb (fun v => String.eqb (typeof v)
                      match xs with v0 :: _ => typeof v0 | [] => "undefined" end)
          xs = true
  <-> (forall x y, In x xs -> In y xs -> typeof x = typeof y).
Proof.
  rewrite forallb_forall. split.
  - intros H x y Hx Hy.
    apply H in Hx. apply H in Hy.
    apply String.eqb_eq in Hx. apply String.eqb_eq in Hy. congruence.
  - intros H v Hv. apply String.eqb_eq.
    destruct xs as [|v0 xs']; [destruct Hv|].
    apply H; [exact Hv | now left].
Qed.

(** X5.  [castArray] returns exactly when every element casts and all the
    results have one [typeof]; it then returns the casts, one scalar for
    each element in order. *)
Theorem castArray_same_type values xs :
  (castArray Date_parse values = Ok xs <->
   mapM (castValue Date_parse) values = Ok xs
   /\ (forall x y, In x xs -> In y xs -> typeof x = typeof y))
  /\ (castArray Date_parse values = Ok xs ->
      List.length xs = List.length values
      /\ Forall (fun x => scalar x = true) xs).
Proof.
  assert (Hiff : castArray Date_parse values = Ok xs <->
                 mapM (castValue Date_parse) values = Ok xs
                 /\ (forall x y, In x xs -> In y xs -> typeof x = typeof y)).
  { unfold castArray.
    destruct (mapM (castValue Date_parse) values) as [arr|e] eqn:E; simpl.
    - pose proof (typeof_uniform arr) as U.
      destruct (forallb _ arr) eqn:F.
      + split.
        * intro H. inversion H. subst. split; [reflexivity|]. now apply U.
        * intros [H _]. exact H.
      + split; [discriminate|].
        intros [H Hall]. inversion H. subst.
        apply U in Hall. congruence.
    - split; [discriminate | intros [H _]; discriminate]. }
  split; [exact Hiff|].
  intro H. apply Hiff in H as [H _]. apply mapM_Forall2 in H.
  clear Hiff. split.
  - symmetry. eapply Forall2_length. exact H.
  - induction H as [|v x vs xs' Hv _ IH]; constructor; [|exact IH].
    now apply castValue_is_scalar with (value := v).
Qed.

Lemma castPair_ok parts xs :
  castPair Date_parse parts = Ok xs ->
  exists a b, xs = [a; b] /\ typeof a = typeof b
              /\ scalar a = true /\ scalar b = true.
Proof.
  destruct parts as [|s [|e rest]]; simpl.
  - discriminate.
  - destruct (castValue Date_parse s); discriminate.
  - unfold castArray. simpl.
    destruct (castValue Date_parse s) as [a|] eqn:Ea; [|discriminate].
    destruct (castValue Date_parse e) as [b|] eqn:Eb; [|discriminate].
    simpl. rewrite String.eqb_refl. simpl.
    destruct (String.eqb (typeof b) (typeof a)) eqn:T; [|discriminate].
    intro H. inversion H. subst. exists a, b.
    apply String.eqb_eq in T.
    repeat split; eauto using castValue_is_scalar.
Qed.

Ltac late_sigil :=
  match goal with
  | Hs : startsWith ?v "~" = false, Hl : startsWith ?v "~*" = true |- _ =>
      unfold startsWith in Hs, Hl;
      pose proof (prefix_append_l "~" "*" v Hl); congruence
  | Hs : startsWith ?v "!~" = false, Hl : startsWith ?v "!~*" = true |- _ =>
      unfold startsWith in Hs, Hl;
      pose proof (prefix_append_l "!~" "*" v Hl); congruence
  end.

(** X6.  The bound of a comparison is always numberish -- a safe
    integer, a big integer or a date -- and a comparison comes only from a
    text that starts with [>] or [<]. *)
Theorem comparison_operand_numberish value k x :
  decodeValue Date_parse value = Ok [(k, x)] ->
  In k comparisonKeys ->
  numberish x = true
  /\ (startsWith value ">" = true \/ startsWith value "<" = true).
Proof.
  unfold decodeValue, comparisonKeys. intros H Hk.
  branches H; try discriminate; try late_sigil;
    inversion H; subst; simpl in Hk;
    try (now repeat (destruct Hk as [Hk|Hk]; [discriminate|]));
    (split; [eapply castNumberish_numberish; eassumption|]);
    unfold startsWith in *;
    first [ left; reflexivity | right; reflexivity
          | left; apply (prefix_append_l ">" "=" value); assumption
          | right; apply (prefix_append_l "<" "=" value); assumption ].
Qed.

(** X7.  The operand of a range is always a pair of scalars of one
    [typeof]. *)
Theorem range_operand_pair value k x :
  decodeValue Date_parse value = Ok [(k, x)] ->
  In k rangeKeys ->
  exists a b, x = JArray [a; b] /\ typeof a = typeof b
              /\ scalar a = true /\ scalar b = true.
Proof.
  unfold decodeValue, rangeKeys. intros H Hk.
  branches H; try discriminate; try late_sigil;
    inversion H; subst; simpl in Hk;
    try (now repeat (destruct Hk as [Hk|Hk]; [discriminate|]));
    match goal with
    | E : castPair _ _ = Ok _ |- _ =>
        apply castPair_ok in E;
        destruct E as (u & w & -> & T & Su & Sw);
        now exists u, w
    end.
Qed.

(** X8.  The operators that take the rest of the text as it is give the
    text back: the value is the sigil followed by the operand, and a
    string under [$eq] is the whole value. *)
Theorem decodeValue_text_operand value k r :
  decodeValue Date_parse value = Ok [(k, JString r)] ->
  (forall sigil, In (k, sigil) textOperators -> value = (sigil ++ r)%string)
  /\ (k = "$eq" -> value = r).
Proof.
  unfold decodeValue, textOperators. intro H.
  branches H; try discriminate; try late_sigil;
    inversion H; subst;
    (split;
     [ intros sigil Hk; simpl in Hk;
       repeat (destruct Hk as [Hk|Hk];
               [inversion Hk; subst; try discriminate|]); try tauto;
       unfold startsWith, removePrefix in *;
       now apply prefix_drop
     | intro Hk; try discriminate; reflexivity ]).
Qed.

End OperandFacts.

(** ** Arrays of values and whole queries *)

Section ArrayFacts.

Import Js Filter.

Variable Date_parse : string -> option Z.

Lemma handleElement_fresh queryObject v k x :
  decodeValue Date_parse v = Ok [(k, x)] ->
  Obj.get queryObject k = None ->
  handleElement Date_parse queryObject v = Ok (queryObject ++ [(k, x)])%list.
Proof.
  intros Hv Hk. unfold handleElement. rewrite Hv. simpl. rewrite Hk.
  unfold Obj.spread. simpl. unfold Obj.setPair. simpl.
  now rewrite set_fresh.
Qed.

Lemma handleFrom_distinct values : forall kxs queryObject,
  Forall2 (fun v kx => decodeValue Date_parse v = Ok [kx]) values kxs ->
  NoDup (map fst kxs) ->
  (forall k, In k (map fst kxs) -> Obj.get queryObject k = None) ->
  handleFrom Date_parse queryObject values = Ok (queryObject ++ kxs)%list.
Proof.
  induction values as [|v values IH]; intros kxs queryObject Hall Hnd Hfresh.
  - inversion Hall. subst. simpl. now rewrite app_nil_r.
  - inversion Hall as [|? [k x] ? kxs' Hv Hrest]. subst.
    simpl in Hnd. inversion Hnd as [|? ? Hnotin Hnd']. subst.
    simpl. rewrite (@handleElement_fresh queryObject v k x Hv)
      by (apply Hfresh; now left).
    simpl. rewrite (IH kxs' (queryObject ++ [(k, x)])%list Hrest Hnd').
    + now rewrite <- app_assoc.
    + intros k' Hk'. rewrite get_app.
      rewrite Hfresh by (now right). simpl.
      rewrite eqb_neq_false; [reflexivity|].
      intro E. subst k'. contradiction.
Qed.

(** X9.  When the values of a repeated parameter decode to operators that
    all differ, [handleArray] keeps every one of them, in the order of the
    values. *)
Theorem handleArray_distinct_keys values kxs :
  Forall2 (fun v kx => decodeValue Date_parse v = Ok [kx]) values kxs ->
  NoDup (map fst kxs) ->
  handleArray Date_parse values = Ok kxs.
Proof.
  intros Hall Hnd. unfold handleArray.
  rewrite (@handleFrom_distinct values kxs [] Hall Hnd); [reflexivity|].
  reflexivity.
Qed.

Lemma decoded_key_not_and v k x :
  decodeValue Date_parse v = Ok [(k, x)] ->
  String.eqb k "$and" = false /\ String.eqb "$and" k = false.
Proof.
  intro H.
  apply (@decodeValue_shape Date_parse (fun _ => [])) in H
    as (k' & x' & E & Hin).
  inversion E. subst.
  assert (Hne : k' <> "$and") by now apply operatorKey_not_and.
  split; [now apply eqb_neq_false|].
  apply eqb_neq_false. intro E'. apply Hne. now symmetry.
Qed.

(** X10.  Only two conditions on one operator are ever kept.  A third
    value with the operator of the first two stays beside their [$and];
    a fourth replaces that [$and] by the pair of the third and the fourth,
    and the first two conditions are gone. *)
Theorem handleArray_keeps_two v1 v2 v3 v4 k x1 x2 x3 x4 :
  decodeValue Date_parse v1 = Ok [(k, x1)] ->
  decodeValue Date_parse v2 = Ok [(k, x2)] ->
  decodeValue Date_parse v3 = Ok [(k, x3)] ->
  decodeValue Date_parse v4 = Ok [(k, x4)] ->
  handleArray Date_parse [v1; v2; v3]
  = Ok [("$and", JArray [JObject [(k, x1)]; JObject [(k, x2)]]); (k, x3)]
  /\ handleArray Date_parse [v1; v2; v3; v4]
     = Ok [("$and", JArray [JObject [(k, x3)]; JObject [(k, x4)]])].
Proof.
  intros H1 H2 H3 H4.
  destruct (@decoded_key_not_and v1 k x1 H1) as [Hk Hk'].
  unfold handleArray, handleFrom, handleElement, Obj.spread.
  rewrite H1, H2, H3, H4.
  cbn [bind Obj.keys map fst snd fold_left Obj.setPair Obj.get Obj.set Obj.delete].
  repeat (rewrite ?String.eqb_refl, ?Hk, ?Hk';
          cbn [bind Obj.keys map fst snd fold_left Obj.setPair Obj.get
               Obj.set Obj.delete]).
  split; reflexivity.
Qed.

End ArrayFacts.

Section QueryFacts.

Import Js Filter.

Variable Date_parse : string -> option Z.
Variable getQuery : string -> ParsedQuery.

Lemma handleFrom_throw values e : forall queryObject,
  handleFrom Date_parse queryObject values = Throw e -> decoderError e.
Proof.
  induction values as [|v values IH]; intro queryObject; simpl; [discriminate|].
  destruct (handleElement Date_parse queryObject v) as [q'|e'] eqn:E; simpl.
  - apply IH.
  - intro H. inversion H. subst e'. clear H.
    unfold handleElement in E.
    destruct (decodeValue Date_parse v) as [o|e0] eqn:Ev; simpl in E.
    + apply (@decodeValue_shape Date_parse getQuery) in Ev
        as (k & x & -> & _).
      simpl in E. destruct (Obj.get queryObject k); discriminate.
    + inversion E. subst.
      eapply (@decodeValue_throw Date_parse getQuery). eassumption.
Qed.

Lemma decodeEntries_throw entries e : forall acc,
  decodeEntries Date_parse acc entries = Throw e -> decoderError e.
Proof.
  induction entries as [|[key [sv|lv]] entries IH]; intro acc; simpl;
    [discriminate| |].
  - destruct (decodeValue Date_parse sv) as [d|e'] eqn:E; simpl.
    + apply IH.
    + intro H. inversion H. subst.
      eapply (@decodeValue_throw Date_parse getQuery). eassumption.
  - destruct (handleArray Date_parse lv) as [d|e'] eqn:E; simpl.
    + apply IH.
    + intro H. inversion H. subst. eapply handleFrom_throw. exact E.
Qed.

Lemma addGroup_throw filter name g e :
  addGroup Date_parse getQuery filter name g = Throw e -> decoderError e.
Proof.
  unfold addGroup. destruct g as [[sv|lv]|]; try discriminate.
  - destruct (String.eqb sv ""); [discriminate|].
    destruct (parseAndOrNot Date_parse getQuery sv) as [o|e'] eqn:E; simpl;
      [discriminate|].
    intro H. inversion H. subst. eapply decodeEntries_throw. exact E.
  - intro H. inversion H. unfold decoderError. tauto.
Qed.

(** X11.  Whatever [processQuery] throws comes from the decoder: the
    syntax error of [BigInt], the type error of a missing range end or of
    a repeated group, or one of the two messages of the casts. *)
Theorem processQuery_throws_decoder_errors q e :
  processQuery Date_parse getQuery q = Throw e -> decoderError e.
Proof.
  unfold processQuery. intro H.
  destruct (decodeEntries Date_parse [] (restOf q)) as [f0|e0] eqn:E0;
    simpl in H; [|inversion H; subst; eapply decodeEntries_throw; exact E0].
  destruct (addGroup Date_parse getQuery f0 "$and" (Obj.get q "and"))
    as [f1|e1] eqn:E1;
    simpl in H; [|inversion H; subst; eapply addGroup_throw; exact E1].
  destruct (addGroup Date_parse getQuery f1 "$or" (Obj.get q "or"))
    as [f2|e2] eqn:E2;
    simpl in H; [|inversion H; subst; eapply addGroup_throw; exact E2].
  destruct (addGroup Date_parse getQuery f2 "$not" (Obj.get q "not"))
    as [f3|e3] eqn:E3;
    simpl in H; [|inversion H; subst; eapply addGroup_throw; exact E3].
  discriminate.
Qed.

Lemma decodeEntries_other entries : forall acc f k,
  decodeEntries Date_parse acc entries = Ok f ->
  ~ In k (map fst entries) ->
  Obj.get f k = Obj.get acc k.
Proof.
  induction entries as [|[key value] entries IH]; intros acc f k H Hk.
  - inversion H. reflexivity.
  - simpl in Hk.
    assert (Hne : key <> k) by tauto.
    assert (Hk' : ~ In k (map fst entries)) by tauto.
    destruct value as [sv|lv]; simpl in H.
    + destruct (decodeValue Date_parse sv) as [d|]; [|discriminate].
      simpl in H. rewrite (IH _ _ _ H Hk'). now apply get_set_other.
    + destruct (handleArray Date_parse lv) as [d|]; [|discriminate].
      simpl in H. rewrite (IH _ _ _ H Hk'). now apply get_set_other.
Qed.

Lemma restOf_not_reserved q k :
  In k reservedKeys -> ~ In k (map fst (restOf q)).
Proof.
  intros Hr Hin. unfold restOf in Hin.
  apply in_map_iff in Hin as ([k' v] & E & Hin). simpl in E. subst k'.
  apply filter_In in Hin as [_ Hf]. simpl in Hf.
  apply negb_true_iff in Hf.
  pose proof (@isReserved_false k k Hf Hr) as Hne.
  rewrite String.eqb_refl in Hne. discriminate.
Qed.

(** X12.  The reserved parameters never filter: in the filter that
    [processQuery] returns, no condition stands under [page], [size],
    [sort], [q], [and], [or] or [not], whatever the query holds. *)
Theorem processQuery_reserved_keys_absent q pq k :
  processQuery Date_parse getQuery q = Ok pq ->
  In k reservedKeys ->
  Obj.get (pq_filter pq) k = None.
Proof.
  unfold processQuery. intros H Hr.
  destruct (decodeEntries Date_parse [] (restOf q)) as [f0|] eqn:E0;
    [|discriminate]. simpl in H.
  destruct (addGroup Date_parse getQuery f0 "$and" (Obj.get q "and"))
    as [f1|] eqn:E1; [|discriminate]. simpl in H.
  destruct (addGroup Date_parse getQuery f1 "$or" (Obj.get q "or"))
    as [f2|] eqn:E2; [|discriminate]. simpl in H.
  destruct (addGroup Date_parse getQuery f2 "$not" (Obj.get q "not"))
    as [f3|] eqn:E3; [|discriminate]. simpl in H.
  inversion H. subst pq. simpl.
  assert (Hne : k <> "$and" /\ k <> "$or" /\ k <> "$not").
  { unfold reservedKeys in Hr. simpl in Hr.
    repeat (destruct Hr as [<-|Hr]; [repeat split; discriminate|]).
    destruct Hr. }
  destruct Hne as (Ha & Ho & Hn).
  rewrite (@addGroup_get Date_parse getQuery f2 "$not" _ f3 k E3 Hn).
  rewrite (@addGroup_get Date_parse getQuery f1 "$or" _ f2 k E2 Ho).
  rewrite (@addGroup_get Date_parse getQuery f0 "$and" _ f1 k E1 Ha).
  rewrite (@decodeEntries_other (restOf q) [] f0 k E0
             (@restOf_not_reserved q k Hr)).
  reflexivity.
Qed.

End QueryFacts.

(** ** Groups *)

Lemma length_append (s t : string) :
  String.length (s ++ t) = (String.length s + String.length t)%nat.
Proof. induction s as [|c s IH]; simpl; [reflexivity | now rewrite IH]. Qed.

Lemma substring_prefix (s t : string) :
  String.substring 0 (String.length s) (s ++ t) = s.
Proof.
  induction s as [|c s IH]; simpl.
  - now destruct t.
  - now rewrite IH.
Qed.

Lemma replaceBars_length (s : string) :
  String.length (Filter.replaceBars s) = String.length s.
Proof. induction s as [|c s IH]; simpl; [reflexivity | now rewrite IH]. Qed.

Lemma replaceBars_substring (s : string) : forall n m,
  Filter.replaceBars (String.substring n m s)
  = String.substring n m (Filter.replaceBars s).
Proof.
  induction s as [|c s IH]; intros [|n] [|m]; simpl; try reflexivity.
  - now rewrite IH.
  - apply IH.
  - apply IH.
Qed.

Lemma replaceBars_idempotent (s : string) :
  Filter.replaceBars (Filter.replaceBars s) = Filter.replaceBars s.
Proof.
  induction s as [|c s IH]; simpl; [reflexivity|]. rewrite IH.
  destruct (Ascii.eqb c "|") eqn:E; [reflexivity | now rewrite E].
Qed.

Section GroupFacts.

Import Js Filter.

Variable Date_parse : string -> option Z.
Variable getQuery : string -> ParsedQuery.

Lemma stripEnds_both (a b : ascii) (s : string) :
  stripEnds (String a (s ++ String b "")) = s.
Proof.
  unfold stripEnds, substring. cbn [String.length].
  rewrite length_append. cbn [String.length].
  set (n := String.length s).
  replace (Z.max 0 (Z.min 1 (Z.of_nat (S (n + 1))))) with 1 by lia.
  replace (Z.max 0 (Z.min (Z.of_nat (S (n + 1)) - 1) (Z.of_nat (S (n + 1)))))
    with (Z.of_nat n + 1) by lia.
  replace (Z.min 1 (Z.of_nat n + 1)) with 1 by lia.
  replace (Z.max 1 (Z.of_nat n + 1) - 1) with (Z.of_nat n) by lia.
  rewrite Nat2Z.id. change (Z.to_nat 1) with 1%nat.
  cbn [String.substring]. apply substring_prefix.
Qed.

Lemma stripEnds_replaceBars (value : string) :
  stripEnds (replaceBars value) = replaceBars (stripEnds value).
Proof.
  unfold stripEnds, substring.
  now rewrite replaceBars_length, replaceBars_substring.
Qed.

(** X13.  A group is read without looking at its brackets or at its
    separator: the first and the last character are dropped whatever they
    are, a text of one character is kept whole, and a bar is read as an
    ampersand, so that the alternatives of [or] are tokenized like the
    conditions of [and]. *)
Theorem parseAndOrNot_reads_no_brackets (a b : ascii) (s value : string) :
  parseAndOrNot Date_parse getQuery (String a (s ++ String b ""))
  = decodeEntries Date_parse [] (getQuery (replaceBars s))
  /\ parseAndOrNot Date_parse getQuery (String a "")
     = decodeEntries Date_parse [] (getQuery (replaceBars (String a "")))
  /\ parseAndOrNot Date_parse getQuery (replaceBars value)
     = parseAndOrNot Date_parse getQuery value.
Proof.
  unfold parseAndOrNot. repeat split.
  - now rewrite stripEnds_both.
  - now rewrite stripEnds_replaceBars, replaceBars_idempotent.
Qed.

End GroupFacts.

(** ** The two copies of the decoder *)

Section CopyFacts.

Import Js Filter.

Variable Date_parse : string -> option Z.

Ltac branches H :=
  repeat match type of H with
    | context [if ?c then _ else _] =>
        let E := fresh "C" in destruct c eqn:E
    | context [bind ?r _] => let E := fresh "E" in destruct r eqn:E; simpl in H
    | context [match ?r with Some _ => _ | None => _ end] =>
        let E := fresh "E" in destruct r eqn:E
    end.

(** X14.  Where the later [decodeValue] returns, the earlier copy picks
    the same operator for the text, and the same operand when the operator
    takes a number, a boolean or the raw text; the later copy differs in
    casting the bounds and the elements, and in throwing. *)
Theorem decodeValue_copies_agree value k x :
  decodeValue Date_parse value = Ok [(k, x)] ->
  exists x0,
    Filter0.decodeValue value = [(k, x0)]
    /\ (In k sameOperandKeys -> x0 = x).
Proof.
  unfold decodeValue, Filter0.decodeValue, sameOperandKeys. intro H.
  branches H; try discriminate;
    inversion H; subst; eexists; (split; [reflexivity|]);
    simpl; intro Hk;
    first [ reflexivity
          | exfalso;
            repeat (destruct Hk as [Hk|Hk]; [discriminate|]); exact Hk ].
Qed.

(** X15.  The earlier [castValue] never throws, and the later one agrees
    with it wherever it returns something other than a big integer or a
    date; where the later one throws or returns a big integer, the
    earlier one returns the Number of the text, which is then no safe
    integer. *)
Theorem castValue_copies value :
  match castValue Date_parse value with
  | Ok (JBigInt _) | Throw _ =>
      Filter0.castValue value = JNumber (Number value)
      /\ isSafeInteger (Number value) = false
  | Ok (JDate _) => Filter0.castValue value = JString value
  | Ok x => Filter0.castValue value = x
  end.
Proof.
  unfold castValue, Filter0.castValue.
  destruct (String.eqb value ""); [reflexivity|].
  destruct (String.eqb (toLowerCase value) "true"); [reflexivity|].
  destruct (String.eqb (toLowerCase value) "false"); [reflexivity|].
  destruct (String.eqb (toLowerCase value) "null"); [reflexivity|].
  destruct (isNaN (Number value)); simpl.
  - destruct (Date_parse value); reflexivity.
  - destruct (isSafeInteger (Number value)) eqn:S; [reflexivity|].
    destruct (BigInt value); split; reflexivity.
Qed.

End CopyFacts.

(** ** The view and its ordering *)

Lemma breakComma_noComma (p : string) :
  noComma p = true -> breakComma p = (p, None).
Proof.
  induction p as [|c p IH]; simpl; [reflexivity|].
  intro H. apply andb_true_iff in H as [Hc Hp].
  apply negb_true_iff in Hc. rewrite Hc, (IH Hp). reflexivity.
Qed.

Lemma breakComma_append (p r : string) :
  noComma p = true -> breakComma (p ++ String "," r) = (p, Some r).
Proof.
  induction p as [|c p IH]; simpl; [reflexivity|].
  intro H. apply andb_true_iff in H as [Hc Hp].
  apply negb_true_iff in Hc. rewrite Hc, (IH Hp). reflexivity.
Qed.

(** Splitting at the commas undoes joining with commas, for parts that
    hold none. *)
Lemma split_join (parts : list string) :
  parts <> [] ->
  Forall (fun p => noComma p = true) parts ->
  Js.split (Js.join parts ",") "," = parts.
Proof.
  induction parts as [|p parts IH]; intros Hne Hall; [congruence|].
  inversion Hall as [|? ? Hp Hrest]. subst.
  rewrite split_comma. unfold Js.join in *. simpl String.concat.
  destruct parts as [|p' parts'].
  - now rewrite (breakComma_noComma p Hp).
  - change (p ++ "," ++ String.concat "," (p' :: parts'))%string
      with (p ++ String "," (String.concat "," (p' :: parts')))%string.
    rewrite (@breakComma_append p _ Hp). cbn [fst snd].
    rewrite IH; [reflexivity | discriminate | exact Hrest].
Qed.

Section OrderFacts.

Import Js APIView.

Lemma pairOf_renderPart (p : string * Direction) :
  plainField (fst p) = true -> pairOf (renderPart p) = p.
Proof.
  destruct p as [f [|]]; unfold renderPart, pairOf; simpl; intro H.
  - rewrite (plainField_cleaned f H). f_equal.
    unfold directionOf, startsWith.
    destruct f as [|c f]; [reflexivity|].
    rewrite prefix_single. simpl in H. apply andb_true_iff in H as [Hc _].
    destruct (isWordChar_not_sigil c Hc) as [_ Hd].
    rewrite Ascii.eqb_sym, Hd. reflexivity.
  - unfold directionOf, startsWith. rewrite prefix_single. reflexivity.
Qed.

Lemma renderPart_noComma (p : string * Direction) :
  plainField (fst p) = true -> noComma (renderPart p) = true.
Proof.
  destruct p as [f [|]]; unfold renderPart; simpl; intro H.
  - now apply plainField_noComma.
  - change (noComma (String "-" f)) with (noComma f).
    now apply plainField_noComma.
Qed.

Lemma renderPart_allowed (fields : Datatypes.list string)
    (p : string * Direction) :
  plainField (fst p) = true -> In (fst p) fields ->
  tokenAllowed fields (renderPart p) = true.
Proof.
  intros Hp Hin. unfold tokenAllowed. apply existsb_exists.
  exists (fst p). split; [exact Hin|]. apply String.eqb_eq.
  destruct p as [f [|]]; unfold renderPart; simpl in *.
  - now apply plainField_cleaned.
  - reflexivity.
Qed.

(** X16.  [useAPIView] throws exactly when no [primaryKey] option is given
    and the table has no primary column, and then names all three
    operations in its message; when it takes the key from the table, the
    three operations share the first primary column. *)
Theorem useAPIView_undefined_key (o : APIViewOptions) :
  (forall e,
      useAPIView o = Throw e <->
      primaryKey o = None /\ getTablePrimaryKeys (model o) = []
      /\ e = Error "primaryKey[retrieve|update|delete] is undefined")
  /\ (forall v,
         useAPIView o = Ok v -> primaryKey o = None ->
         exists pk,
           hd_error (getTablePrimaryKeys (model o)) = Some pk
           /\ pk_of_retrieve v = pk /\ pk_of_update v = pk
           /\ pk_of_delete v = pk).
Proof.
  unfold useAPIView, resolveKey.
  destruct (primaryKey o) as [[c|r u d dflt]|]; simpl.
  - split; [|intros v _ H; discriminate].
    intro e. split; [discriminate | intros (H & _); discriminate].
  - split; [|intros v _ H; discriminate].
    intro e. split; [discriminate | intros (H & _); discriminate].
  - destruct (getTablePrimaryKeys (model o)) as [|pk rest]; simpl.
    + split; [|intros v H; discriminate].
      intro e. split.
      * intro H. inversion H. auto.
      * intros (_ & _ & ->). reflexivity.
    + split.
      * intro e. split; [discriminate | intros (_ & H & _); discriminate].
      * intros v H _. inversion H. subst v. simpl. eauto.
Qed.



End OrderFacts.

(** ** The operations of the view *)

Lemma mapM_throws_in {A B : Type} (f : A -> Result B) (e : Exn) (l : list A) :
  (forall a e', f a = Throw e' -> e' = e) ->
  (exists a, In a l /\ f a = Throw e) ->
  mapM f l = Throw e.
Proof.
  intros Honly. induction l as [|a l IH]; intros (b & Hin & Hb).
  - destruct Hin.
  - simpl. destruct (f a) as [y|e'] eqn:Ea; simpl.
    + destruct Hin as [->|Hin]; [congruence|].
      rewrite IH by (exists b; split; assumption). reflexivity.
    + now rewrite (Honly a e' Ea).
Qed.

Section OperationFacts.

Import Js APIView Operations.

Implicit Types (v : View) (lo : ListOptions) (ko : KeyedOptions)
  (co : CreateOptions) (d : DestroyOptions) (x : OtherOptions)
  (ev : H3Event).

#[local] Arguments parse : simpl never.
#[local] Arguments parseArray : simpl never.

Lemma parse_throws_ZodError (schema : ZodObject) (input : option object) e :
  parse schema input = Throw e -> e = ZodError.
Proof.
  unfold parse. destruct input as [o|]; [|congruence].
  destruct (validate schema o); congruence.
Qed.

(** X19.  [list] is all or nothing.  When the select returns rows that
    all pass the schema, the answer holds the image of every row, in the
    order of the rows, and the count read from the first row; when one
    row fails the schema, the whole call fails with the validator's
    error. *)
Theorem list_all_or_nothing v lo ev ordering r0 rest :
  optField (handlers (options v)) h_list = None ->
  listEvent v lo = Some ev ->
  orderingOf (options v) (query ev) = Ok ordering ->
  select (db (options v)) (listQuery v lo (query ev) ordering)
  = Ok (r0 :: rest) ->
  let rows := r0 :: rest in
  let n := nullish (windowCount r0) (ofZ (Z.of_nat (List.length rows))) in
  (forall rs,
      Forall2 (fun r o => parse (listSchema v lo) (Some (rowObject r)) = Ok o)
              rows rs ->
      list v lo
      = Ok (if paginateOf (listCanPaginate v lo) (query ev)
            then ListPaginated
                   {| page := pageOf (query ev);
                      pageSize := listPageSize v lo;
                      count := n;
                      pageCount := ceil (div n (listPageSize v lo));
                      results := rs |}
            else ListPlain rs))
  /\ ((exists r, In r rows
                 /\ parse (listSchema v lo) (Some (rowObject r)) = Throw ZodError) ->
      list v lo = Throw ZodError).
Proof.
  intros Hh Hev Hord Hsel rows n. unfold list.
  rewrite Hh, Hev. cbn [getEvent bind]. rewrite Hord. cbn [bind].
  rewrite Hsel. cbn [bind countOf]. fold rows. fold n.
  unfold parseArray. split.
  - intros rs Hrs.
    assert (E : mapM (fun r => parse (listSchema v lo) (Some r))
                     (map rowObject rows) = Ok rs).
    { apply mapM_Forall2. clear - Hrs.
      induction Hrs; simpl; constructor; assumption. }
    rewrite E.
    destruct (paginateOf (listCanPaginate v lo) (query ev)); reflexivity.
  - intros (r & Hin & Hr).
    assert (E : mapM (fun r => parse (listSchema v lo) (Some r))
                     (map rowObject rows) = Throw ZodError).
    { apply mapM_throws_in.
      - intros a e'. apply parse_throws_ZodError.
      - exists (rowObject r). split; [now apply in_map | exact Hr]. }
    rewrite E.
    destruct (paginateOf (listCanPaginate v lo) (query ev)); reflexivity.
Qed.

(** X20.  No operation runs without an event, not even a registered
    handler: with no event in the options of the view and none in the
    options of the call, each of the six operations throws
    [event is undefined]. *)
Theorem operations_need_event x v lo ko co d :
  event (options v) = None ->
  lo_event lo = None -> ko_event ko = None ->
  co_event co = None -> do_event d = None ->
  let e := Error "event is undefined" in
  list v lo = Throw e /\ retrieve v ko = Throw e /\ update v ko = Throw e
  /\ create x v co = Throw e /\ destroy x v d = Throw e
  /\ search x v None = Throw e.
Proof.
  intros Hv Hlo Hko Hco Hd e.
  unfold list, retrieve, update, create, destroy, search,
    listEvent, keyedEvent, createEvent, destroyEvent, searchEvent.
  rewrite Hv, Hlo, Hko, Hco, Hd.
  destruct (optField (handlers (options v)) h_list),
    (optField (handlers (options v)) h_retrieve),
    (optField (handlers (options v)) h_update),
    (h_create x), (h_destroy x), (h_search x);
    repeat split; reflexivity.
Qed.

(** X21.  The built-in [create] puts the body and then the inserted row
    through one schema, its own: it returns a row exactly when the body
    passes, the insert returns a first row and that row passes again;
    when the insert returns no row it fails with the validator's
    error. *)
Theorem create_validates_twice x v co ev :
  h_create x = None ->
  createEvent v co = Some ev ->
  (forall reply,
      create x v co = Ok reply <->
      exists values row rest payload,
        parse (createSchema v co) (body ev) = Ok values
        /\ insert_returning x values = Ok (row :: rest)
        /\ parse (createSchema v co) (Some row) = Ok payload
        /\ reply = Row payload)
  /\ (forall values,
         parse (createSchema v co) (body ev) = Ok values ->
         insert_returning x values = Ok [] ->
         create x v co = Throw ZodError).
Proof.
  intros Hh Hev. unfold create. rewrite Hh, Hev. cbn [getEvent bind].
  split.
  - intro reply. split.
    + intro H.
      destruct (parse (createSchema v co) (body ev)) as [values|] eqn:Ev;
        [|discriminate]. cbn [bind] in H.
      destruct (insert_returning x values) as [[|row rest]|] eqn:Ei;
        cbn [bind hd_error] in H; [|idtac|discriminate].
      * unfold parse in H at 1. discriminate.
      * destruct (parse (createSchema v co) (Some row)) as [payload|] eqn:Er;
          [|discriminate].
        cbn [bind] in H. inversion H. subst.
        exists values, row, rest, payload. auto.
    + intros (values & row & rest & payload & Ev & Ei & Er & ->).
      rewrite Ev. cbn [bind]. rewrite Ei. cbn [bind hd_error].
      rewrite Er. reflexivity.
  - intros values Ev Ei. rewrite Ev. cbn [bind]. rewrite Ei. reflexivity.
Qed.

(** X22.  The built-in [destroy] validates nothing: whatever rows the
    delete returns, the answer is the first of them, [undefined] when no
    row matched, and the call fails only as the delete itself fails. *)
Theorem destroy_missing_row_is_undefined x v d ev :
  h_destroy x = None ->
  destroyEvent v d = Some ev ->
  let pk := getRouterParam ev (destroyKey v d) in
  (forall rows,
      delete_returning x (destroyKey v d) pk = Ok rows ->
      destroy x v d = Ok (Deleted (hd_error rows)))
  /\ (delete_returning x (destroyKey v d) pk = Ok [] ->
      destroy x v d = Ok (Deleted None))
  /\ (forall e,
         destroy x v d = Throw e <->
         delete_returning x (destroyKey v d) pk = Throw e).
Proof.
  intros Hh Hev pk. unfold destroy. rewrite Hh, Hev. cbn [getEvent bind].
  fold pk. repeat split.
  - intros rows ->. reflexivity.
  - intros ->. reflexivity.
  - destruct (delete_returning x (destroyKey v d) pk); cbn [bind];
      [discriminate | congruence].
  - intros ->. reflexivity.
Qed.

(** X23.  The built-in [search] finds nothing: whatever the query, the
    answer is the empty list, and only the wait depends on the [q]
    parameter -- a second when it is given and not empty, none
    otherwise. *)
Theorem search_finds_nothing x v (e : option H3Event) ev :
  h_search x = None ->
  searchEvent v e = Some ev ->
  exists wait,
    search x v e = Ok (Found wait [])
    /\ (wait = 1000 <->
        exists q, Obj.get (query ev) "q" = Some q /\ truthy q = true)
    /\ (wait = 0 \/ wait = 1000).
Proof.
  intros Hh Hev. unfold search. rewrite Hh, Hev. cbn [getEvent bind].
  destruct (Obj.get (query ev) "q") as [q|].
  - destruct (truthy q) eqn:T.
    + exists 1000. repeat split; [eauto | auto].
    + exists 0. repeat split; [discriminate| |auto].
      intros (q' & E & T'). inversion E. congruence.
  - exists 0. repeat split; [discriminate| |auto].
    intros (q' & E & _). discriminate.
Qed.

Lemma fold_addAction (path : string) (acts : Datatypes.list Action) :
  forall router,
    fold_left (addAction path) acts router
    = (router ++ map (actionRoute path) acts)%list.
Proof.
  induction acts as [|a acts IH]; intro router; simpl.
  - now rewrite app_nil_r.
  - rewrite IH. unfold addAction, add. rewrite <- app_assoc. reflexivity.
Qed.

Lemma register_as_routes x v (router : Router) (path : string)
    (handlers : option APIViewHandlers) :
  register x v router path handlers
  = (router
     ++ map (operationRoute v path)
            (filter (wants (nullish handlers All)) allHandlers)
     ++ map (actionRoute path) (nullish (actions x) []))%list.
Proof.
  unfold register, allHandlers.
  set (hs := nullish handlers All).
  assert (Hacts : forall r,
            match actions x with
            | Some acts => fold_left (addAction path) acts r
            | None => r
            end = (r ++ map (actionRoute path) (nullish (actions x) []))%list).
  { intro r. destruct (actions x) as [acts|]; simpl.
    - apply fold_addAction.
    - now rewrite app_nil_r. }
  rewrite Hacts. cbn [filter].
  destruct (wants hs OpList), (wants hs OpCreate), (wants hs OpRetrieve),
    (wants hs OpUpdate), (wants hs OpDestroy), (wants hs OpSearch);
    unfold add; cbn [map operationRoute app];
    rewrite <- ?app_assoc; reflexivity.
Qed.

(** X24.  [register] adds, after the routes the router holds, the routes
    of the wanted operations in the one order list, create, retrieve,
    update, destroy, search -- however [handlers] orders or repeats their
    names -- and then the routes of the actions in their order; so two
    lists of handlers that name the same operations register the same
    routes. *)
Theorem register_routes x v (router : Router) (path : string)
    (handlers : option APIViewHandlers) :
  register x v router path handlers
  = (router
     ++ map (operationRoute v path)
            (filter (wants (nullish handlers All)) allHandlers)
     ++ map (actionRoute path) (nullish (actions x) []))%list
  /\ (forall names names',
         (forall op, In op names <-> In op names') ->
         register x v router path (Some (Only names))
         = register x v router path (Some (Only names'))).
Proof.
  split; [apply register_as_routes|].
  intros names names' Hsame. rewrite !register_as_routes. do 3 f_equal.
  apply filter_ext. intro op. cbn [nullish wants].
  apply eq_true_iff_eq. rewrite !existsb_exists.
  assert (Heq : forall a b, sameHandler a b = true <-> a = b)
    by (intros [] []; simpl; split; congruence).
  split; intros (op' & Hin & E); apply Heq in E; subst op';
    exists op; (split; [now apply Hsame | now apply Heq]).
Qed.

Lemma prefix_append (p r : string) : String.prefix p (p ++ r) = true.
Proof.
  induction p as [|c p IH]; simpl; [now destruct r|].
  destruct (ascii_dec c c); [exact IH | congruence].
Qed.

(** X25.  Every route that [register] adds for an operation lies under
    the path of the view, and so does the route of an action unless the
    path of the action starts with a slash, which is then registered as
    it is; the route of a detail action ends in [/:pk] whatever the
    primary key of the view is called. *)
Theorem register_paths x v (path : string)
    (handlers : option APIViewHandlers) (r : Route) :
  In r (register x v [] path handlers) ->
  match route_target r with
  | Operation _ => startsWith (route_path r) path = true
  | ActionHandler _ =>
      exists a,
        In a (nullish (actions x) [])
        /\ let own := nullish (a_path a) (a_name a) in
           let tail := if nullish (a_detail a) false then "/:pk" else "" in
           route_path r
           = ((if startsWith own "/" then own else path ++ "/" ++ own)
              ++ tail)%string
           /\ startsWith (route_path r)
                (if startsWith own "/" then own else path) = true
  end.
Proof.
  rewrite register_as_routes. cbn [app]. rewrite in_app_iff, !in_map_iff.
  intros [(op & <- & _)|(a & <- & Ha)].
  - destruct op; cbn [operationRoute route_target route_path];
      unfold startsWith;
      first [apply prefix_append | rewrite <- (append_nil_r path) at 2;
                                   apply prefix_append].
  - cbn [actionRoute route_target route_path]. exists a.
    split; [exact Ha|]. split; [reflexivity|].
    unfold actionRoutePath, startsWith.
    destruct (String.prefix "/" (nullish (a_path a) (a_name a))).
    + apply prefix_append.
    + rewrite append_assoc. apply prefix_append.
Qed.

(** X26.  The [list] of the earlier copy and the present one, when it
    does not page, send the same select and give the same answer for
    every result that holds a row; for a result without rows the earlier
    copy answers the empty list where the present one throws. *)
Theorem list_earlier_copy v lo ev ordering rows :
  optField (handlers (options v)) h_list = None ->
  listEvent v lo = Some ev ->
  orderingOf (options v) (query ev) = Ok ordering ->
  paginateOf (listCanPaginate v lo) (query ev) = false ->
  select (db (options v)) (APIView0.listQuery v lo ordering) = Ok rows ->
  listQuery v lo (query ev) ordering = APIView0.listQuery v lo ordering
  /\ (rows <> [] -> list v lo = APIView0.list v lo)
  /\ (rows = [] ->
      APIView0.list v lo = Ok (ListPlain [])
      /\ list v lo = Throw TypeError).
Proof.
  intros Hh Hev Hord Hpage Hsel.
  assert (Hq : listQuery v lo (query ev) ordering
               = APIView0.listQuery v lo ordering).
  { unfold listQuery, APIView0.listQuery. now rewrite Hpage. }
  split; [exact Hq|].
  unfold list, APIView0.list.
  rewrite Hh, Hev. cbn [getEvent bind]. rewrite Hord. cbn [bind].
  rewrite Hq, Hsel, Hpage. cbn [bind].
  split.
  - destruct rows as [|r0 rest]; [congruence|]. intros _. reflexivity.
  - intros ->. split; reflexivity.
Qed.

End OperationFacts.

(** ** The form schema *)

Section FormKitFacts.

Import FormKit.

Lemma nodeOf_supported (column : Column) :
  if supported (dataType column)
  then exists node, nodeOf column = Ok node
  else nodeOf column
       = Throw (Error ("Column type " ++ dataType column ++ " not supported")).
Proof.
  unfold supported, supportedTypes, nodeOf. cbn [existsb].
  destruct (String.eqb (dataType column) "string"); [simpl; eauto|].
  destruct (String.eqb (dataType column) "number"); [simpl; eauto|].
  destruct (String.eqb (dataType column) "boolean"); [simpl; eauto|].
  destruct (String.eqb (dataType column) "date"); [simpl; eauto|].
  destruct (String.eqb (dataType column) "array"); [simpl; eauto|].
  destruct (String.eqb (dataType column) "json"); [simpl; eauto|].
  reflexivity.
Qed.

(** The first column without an input decides what the [map] throws. *)
Lemma mapM_nodeOf_throws (cs : list Column) (e : Exn) :
  mapM nodeOf cs = Throw e <->
  exists before c after,
    cs = (before ++ c :: after)%list
    /\ Forall (fun c' => supported (dataType c') = true) before
    /\ supported (dataType c) = false
    /\ e = Error ("Column type " ++ dataType c ++ " not supported").
Proof.
  induction cs as [|c cs IH]; simpl.
  - split; [discriminate|].
    intros (before & c & after & E & _). destruct before; discriminate.
  - pose proof (nodeOf_supported c) as Hc.
    destruct (supported (dataType c)) eqn:S.
    + destruct Hc as [node Hnode]. rewrite Hnode. cbn [bind].
      transitivity (mapM nodeOf cs = Throw e).
      * destruct (mapM nodeOf cs); cbn [bind]; split; congruence.
      * rewrite IH. split.
        -- intros (before & c' & after & E & Hb & Hc' & He).
           exists (c :: before), c', after. rewrite E.
           repeat split; auto.
        -- intros (before & c' & after & E & Hb & Hc' & He).
           destruct before as [|b before]; simpl in E; injection E as E1 E2.
           ++ rewrite <- E1 in Hc'. congruence.
           ++ inversion Hb as [|? ? Hb1 Hb2].
              exists before, c', after. repeat split; auto.
    + rewrite Hc. cbn [bind]. split.
      * intro H. injection H as H. exists [], c, cs. repeat split; auto.
      * intros (before & c' & after & E & Hb & Hc' & He).
        destruct before as [|b before]; simpl in E; injection E as E1 E2.
        -- rewrite He, <- E1. reflexivity.
        -- inversion Hb as [|? ? Hb1 Hb2]. rewrite <- E1 in Hb1. congruence.
Qed.


(** X28.  The schema has a node for every column of the table, in the
    order of the columns, followed by the included nodes; [exclude] takes
    no column out, and the answer is the same whatever it lists. *)
Theorem createFormKitSchema_nodes (table : Table) :
  (forall u pk ex ex' inc ov,
      createFormKitSchema table
        (Some {| useForm := u; primaryKey := pk; exclude := ex;
                 include := inc; overrides := ov |})
      = createFormKitSchema table
          (Some {| useForm := u; primaryKey := pk; exclude := ex';
                   include := inc; overrides := ov |}))
  /\ (forall options result,
         createFormKitSchema table options = Ok result ->
         exists schema,
           Forall2 (fun kv node => nodeOf (snd kv) = Ok node)
                   (columns table) schema
           /\ result
              = wrapped
                  match optionOf options useForm with
                  | Some b => b
                  | None => false
                  end
                  (schema
                   ++ match optionOf options include with
                      | Some nodes => nodes
                      | None => []
                      end)%list).
Proof.
  split; [reflexivity|].
  intros options result. unfold createFormKitSchema.
  destruct (Nat.eqb (List.length (columns table)) 0); [discriminate|].
  destruct (mapM nodeOf (map snd (columns table))) as [schema|] eqn:E;
    [|discriminate].
  cbn [bind]. intro H. exists schema. split.
  - apply mapM_Forall2 in E. clear H.
    remember (columns table) as cols eqn:Ec. clear Ec.
    revert schema E. induction cols as [|kv cols IH]; intros schema E;
      inversion E; subst; constructor; auto.
  - unfold wrapped.
    destruct (optionOf options include) as [nodes|];
      destruct (match optionOf options useForm with
                | Some b => b | None => false end);
      rewrite ?app_nil_r; congruence.
Qed.

(** X29.  The node of a numeric column is one constant: it has no name
    and no label, it is the same whether the column may be null or not,
    and its type is never the text the helper could also give.  Every
    other node is named and labelled by its column, is required exactly
    when the column is not null, and has no type. *)
Theorem nodeOf_shape (column : Column) (node : JsValue) :
  nodeOf column = Ok node ->
  if String.eqb (dataType column) "number"
  then node = numericNode
  else exists o,
      node = JObject o
      /\ Obj.get o "name" = Some (JString (name column))
      /\ Obj.get o "label" = Some (JString (name column))
      /\ Obj.get o "validation"
         = Some (if notNull column then JString "required" else JUndefined)
      /\ Obj.get o "type" = None.
Proof.
  unfold nodeOf, getNumericInput.
  destruct (String.eqb (dataType column) "string") eqn:Es.
  - apply String.eqb_eq in Es. rewrite Es.
    intro H. inversion H. eexists. repeat split.
  - destruct (String.eqb (dataType column) "number") eqn:En.
    + intro H. inversion H. reflexivity.
    + destruct (String.eqb (dataType column) "boolean");
        [intro H; inversion H; eexists; repeat split|].
      destruct (String.eqb (dataType column) "date");
        [intro H; inversion H; eexists; repeat split|].
      destruct (String.eqb (dataType column) "array");
        [intro H; inversion H; eexists; repeat split|].
      destruct (String.eqb (dataType column) "json");
        [intro H; inversion H; eexists; repeat split|].
      discriminate.
Qed.

End FormKitFacts.

(** ** The properties on sample requests *)

Section MoreSamples.

Import Js Filter APIView Operations.

(** X2 on [!1..5]. *)
Lemma decodeValue_bang_sample :
  decodeValue Sample.Date_parse "!1..5"
  = Ok [("$nbetween", JArray [JNumber (ofZ 1); JNumber (ofZ 5)])].
Proof.
  rewrite (@decodeValue_bang Sample.Date_parse "1..5"); [reflexivity|].
  discriminate.
Defined.

(** X4 on [42]. *)
Lemma castValue_scalar_sample :
  castValue Sample.Date_parse "42" = Ok (JNumber (ofZ 42))
  /\ scalar (JNumber (ofZ 42)) = true.
Proof.
  split; [reflexivity|].
  exact (proj1 (@castValue_scalar Sample.Date_parse "42" (JNumber (ofZ 42))
                  eq_refl)).
Defined.

(** X6 on [>=18]. *)
Lemma comparison_operand_numberish_sample :
  decodeValue Sample.Date_parse ">=18" = Ok [("$gte", JNumber (ofZ 18))]
  /\ numberish (JNumber (ofZ 18)) = true.
Proof.
  split; [reflexivity|].
  refine (proj1 (@comparison_operand_numberish Sample.Date_parse ">=18"
                   "$gte" (JNumber (ofZ 18)) eq_refl _)).
  simpl. tauto.
Defined.

(** X7 on the dates [2024-01-01..2024-12-31]. *)
Lemma range_operand_pair_sample :
  exists a b,
    decodeValue Sample.Date_parse "2024-01-01..2024-12-31"
    = Ok [("$between", JArray [a; b])]
    /\ typeof a = typeof b.
Proof.
  destruct (@range_operand_pair Sample.Date_parse "2024-01-01..2024-12-31"
              "$between"
              (JArray [JDate 1704067200000; JDate 1735603200000]) eq_refl)
    as (a & b & E & T & _).
  - simpl. tauto.
  - exists a, b. split; [|exact T]. now rewrite <- E.
Defined.

(** X8 on [~An]. *)
Lemma decodeValue_text_operand_sample :
  decodeValue Sample.Date_parse "~An" = Ok [("$like", JString "An")]
  /\ "~An" = ("~" ++ "An")%string.
Proof.
  split; [reflexivity|].
  apply (proj1 (@decodeValue_text_operand Sample.Date_parse "~An" "$like"
                  "An" eq_refl)).
  simpl. tauto.
Defined.

(** X9 on the query [age=>=18&age=<65]. *)
Lemma handleArray_distinct_keys_sample :
  handleArray Sample.Date_parse [">=18"; "<65"]
  = Ok [("$gte", JNumber (ofZ 18)); ("$lt", JNumber (ofZ 65))].
Proof.
  apply (@handleArray_distinct_keys Sample.Date_parse).
  - repeat constructor.
  - repeat constructor; simpl; intuition discriminate.
Defined.

(** X10 on four patterns for one field. *)
Lemma handleArray_keeps_two_sample :
  handleArray Sample.Date_parse ["~a"; "~b"; "~c"]
  = Ok [("$and", JArray [JObject [("$like", JString "a")];
                         JObject [("$like", JString "b")]]);
        ("$like", JString "c")]
  /\ handleArray Sample.Date_parse ["~a"; "~b"; "~c"; "~d"]
     = Ok [("$and", JArray [JObject [("$like", JString "c")];
                            JObject [("$like", JString "d")]])].
Proof.
  exact (@handleArray_keeps_two Sample.Date_parse "~a" "~b" "~c" "~d"
           "$like" (JString "a") (JString "b") (JString "c") (JString "d")
           eq_refl eq_refl eq_refl eq_refl).
Defined.

(** X11 on a bound that is no number and no date. *)
Lemma processQuery_throws_decoder_errors_sample :
  processQuery Sample.Date_parse Sample.getQuery [("age", QString ">old")]
  = Throw (Error "Not a numberish value")
  /\ decoderError (Error "Not a numberish value").
Proof.
  split; [reflexivity|].
  apply (@processQuery_throws_decoder_errors Sample.Date_parse
           Sample.getQuery [("age", QString ">old")]).
  reflexivity.
Defined.

(** X12 on a query with a page and a filter. *)
Lemma processQuery_reserved_keys_absent_sample :
  exists pq,
    processQuery Sample.Date_parse Sample.getQuery
      [("page", QString "2"); ("age", QString ">=18")] = Ok pq
    /\ Obj.get (pq_filter pq) "page" = None
    /\ Obj.get (pq_filter pq) "age"
       = Some (JObject [("$gte", JNumber (ofZ 18))]).
Proof.
  eexists. split; [reflexivity|]. split; [|reflexivity].
  apply (@processQuery_reserved_keys_absent Sample.Date_parse Sample.getQuery
           [("page", QString "2"); ("age", QString ">=18")]).
  - reflexivity.
  - simpl. tauto.
Defined.

(** X14 on [>=18], where the earlier copy keeps the bound a Number. *)
Lemma decodeValue_copies_agree_sample :
  exists x0, Filter0.decodeValue ">=18" = [("$gte", x0)].
Proof.
  destruct (@decodeValue_copies_agree Sample.Date_parse ">=18" "$gte"
              (JNumber (ofZ 18)) eq_refl) as (x0 & E & _).
  now exists x0.
Defined.


(** X19 on the people table, unpaged. *)
Lemma list_all_or_nothing_sample :
  list (Sample.peopleView Sample.people (Sample.request [] [] None))
       Sample.noListOptions
  = Ok (ListPlain Sample.people).
Proof.
  refine (proj1 (@list_all_or_nothing
                   (Sample.peopleView Sample.people (Sample.request [] [] None))
                   Sample.noListOptions (Sample.request [] [] None) None
                   _ _ eq_refl eq_refl eq_refl eq_refl) Sample.people _).
  repeat constructor.
Defined.

(** X20 on the people view without an event. *)
Lemma operations_need_event_sample :
  list Sample.peopleViewWithoutEvent Sample.noListOptions
  = Throw (Error "event is undefined")
  /\ destroy (Sample.otherOptions Sample.people) Sample.peopleViewWithoutEvent
       Sample.noDestroyOptions
     = Throw (Error "event is undefined").
Proof.
  destruct (@operations_need_event (Sample.otherOptions Sample.people)
              Sample.peopleViewWithoutEvent Sample.noListOptions
              Sample.noKeyedOptions Sample.noCreateOptions
              Sample.noDestroyOptions eq_refl eq_refl eq_refl eq_refl eq_refl)
    as (Hl & _ & _ & _ & Hd & _).
  split; assumption.
Defined.

(** X21 on a new person. *)
Lemma create_validates_twice_sample :
  let body := [("name", JString "Di"); ("age", JNumber (ofZ 52))] in
  create (Sample.otherOptions Sample.people)
    (Sample.peopleView Sample.people (Sample.request [] [] (Some body)))
    Sample.noCreateOptions
  = Ok (Row body).
Proof.
  intro body.
  apply (proj1 (@create_validates_twice (Sample.otherOptions Sample.people)
                  (Sample.peopleView Sample.people
                     (Sample.request [] [] (Some body)))
                  Sample.noCreateOptions
                  (Sample.request [] [] (Some body)) eq_refl eq_refl)).
  exists body, body, [], body. repeat split; reflexivity.
Defined.

(** X22 on a person that is not there. *)
Lemma destroy_missing_row_is_undefined_sample :
  destroy (Sample.otherOptions Sample.people)
    (Sample.peopleView Sample.people (Sample.personRequest "9" None))
    Sample.noDestroyOptions
  = Ok (Deleted None)
  /\ destroy (Sample.otherOptions Sample.people)
       (Sample.peopleView Sample.people (Sample.personRequest "2" None))
       Sample.noDestroyOptions
     = Ok (Deleted (Some [("deletedId", JString "2")])).
Proof.
  split.
  - apply (@destroy_missing_row_is_undefined
             (Sample.otherOptions Sample.people)
             (Sample.peopleView Sample.people (Sample.personRequest "9" None))
             Sample.noDestroyOptions (Sample.personRequest "9" None)
             eq_refl eq_refl).
    reflexivity.
  - apply (proj1 (@destroy_missing_row_is_undefined
             (Sample.otherOptions Sample.people)
             (Sample.peopleView Sample.people (Sample.personRequest "2" None))
             Sample.noDestroyOptions (Sample.personRequest "2" None)
             eq_refl eq_refl) [[("deletedId", JString "2")]]).
    reflexivity.
Defined.

(** X23 on a search for [ann]. *)
Lemma search_finds_nothing_sample :
  exists wait,
    search (Sample.otherOptions Sample.people)
      (Sample.peopleView Sample.people
         (Sample.request [("q", QString "ann")] [] None))
      None
    = Ok (Found wait []).
Proof.
  destruct (@search_finds_nothing (Sample.otherOptions Sample.people)
              (Sample.peopleView Sample.people
                 (Sample.request [("q", QString "ann")] [] None))
              None (Sample.request [("q", QString "ann")] [] None)
              eq_refl eq_refl) as (wait & E & _).
  now exists wait.
Defined.

(** X25 on the route of the retrieve operation under [/people]. *)
Lemma register_paths_sample :
  let v := Sample.peopleView Sample.people (Sample.request [] [] None) in
  let r := operationRoute v "/people" OpRetrieve in
  route_path r = "/people/:id"
  /\ startsWith (route_path r) "/people" = true.
Proof.
  intros v r. split; [reflexivity|].
  apply (@register_paths (Sample.otherOptions Sample.people) v "/people"
           (Some (Only [OpRetrieve])) r).
  simpl. tauto.
Defined.

(** X26 on the people table and on an empty one. *)
Lemma list_earlier_copy_sample :
  list (Sample.peopleView Sample.people (Sample.request [] [] None))
       Sample.noListOptions
  = APIView0.list (Sample.peopleView Sample.people (Sample.request [] [] None))
      Sample.noListOptions
  /\ APIView0.list (Sample.peopleView [] (Sample.request [] [] None))
       Sample.noListOptions
     = Ok (ListPlain []).
Proof.
  split.
  - refine (proj1 (proj2 (@list_earlier_copy
             (Sample.peopleView Sample.people (Sample.request [] [] None))
             Sample.noListOptions (Sample.request [] [] None) None _
             eq_refl eq_refl eq_refl eq_refl eq_refl)) _).
    discriminate.
  - refine (proj1 (proj2 (proj2 (@list_earlier_copy
             (Sample.peopleView [] (Sample.request [] [] None))
             Sample.noListOptions (Sample.request [] [] None) None []
             eq_refl eq_refl eq_refl eq_refl eq_refl)) eq_refl)).
Defined.

(** X29 on a numeric column that may not be null. *)
Lemma nodeOf_shape_sample :
  let column := Sample.formColumn "age" "number" true in
  FormKit.nodeOf column = Ok (FormKit.getNumericInput column)
  /\ FormKit.getNumericInput column = numericNode.
Proof.
  intro column. split; [reflexivity|].
  exact (@nodeOf_shape column (FormKit.getNumericInput column) eq_refl).
Defined.

End MoreSamples.
